(** * TrailEffect: the ping-pong trail accumulation effect

    A shallow embedding of [src/trail-shader/trail-effect.ts]: the two GLSL
    shaders, the part of the three.js renderer the effect drives, and the
    methods of the [TrailEffect] class, written as state-passing functions
    over a world made of the effect object and the renderers it is handed.

    Numbers are modelled as the code has them.  An ECMAScript number is an
    IEEE 754 binary64 value, so the TypeScript side computes with the
    kernel's primitive floats ([trailAmount / 100], [Math.floor (width *
    resolutionScale)], [!==]).  GLSL arithmetic is idealised over the real
    numbers, where [exp] lives: a finite uniform is the real it denotes,
    with no rounding to the precision of the device; an amount of
    [+Infinity] gives the weight 0 that [exp] tends to; for an amount of
    [-Infinity] or NaN the weight is no real number and the colour the
    device writes is left to the renderer, nothing being assumed of it.

    The base class [Effect] of the postprocessing library contributes the
    [uniforms] map and the blend mode; its [initialize] does nothing the
    effect observes.  [dispose] releases resources and is not modelled. *)

From Stdlib Require Import ZArith Bool List Lia Reals Lra.
From Stdlib Require Import PrimFloat SpecFloat FloatOps Uint63.
Import ListNotations.

(** ** ECMAScript numbers *)

Module JS.

Definition number := float.

(** An integer of magnitude below 2^63 as a number (exact below 2^53). *)
Definition of_Z (z : Z) : number :=
  match z with
  | Z0 => 0%float
  | Zpos p => PrimFloat.of_uint63 (Uint63.of_Z (Zpos p))
  | Zneg p => PrimFloat.opp (PrimFloat.of_uint63 (Uint63.of_Z (Zpos p)))
  end.

(** [Math.floor]: the largest integral number not above [x]; zeros,
    infinities and NaN are returned unchanged.  A finite [x] is
    [(-1)^s * m * 2^e]; with [0 <= e] it is integral already, otherwise
    [m] is shifted right by [-e] bits and a negative inexact quotient is
    moved one further down. *)
Definition Math_floor (x : number) : number :=
  match Prim2SF x with
  | S754_finite s m e =>
      if (0 <=? e)%Z then x
      else
        let q := Z.shiftr (Zpos m) (- e) in
        let exact := (Z.shiftl q (- e) =? Zpos m)%Z in
        if s then of_Z (- (if exact then q else q + 1))
        else of_Z q
  | _ => x
  end.

(** [a !== b] on numbers: IEEE inequality (NaN differs from everything,
    the two zeros are equal). *)
Definition strict_neq (a b : number) : bool := negb (PrimFloat.eqb a b).

(** What a number denotes: a real when it is finite (the two zeros are the
    real 0), and otherwise one of the three values outside the reals. *)
Inductive reading : Type :=
  | Finite (x : R)
  | PosInfinity
  | NegInfinity
  | NotANumber.

Definition read (x : number) : reading :=
  match Prim2SF x with
  | S754_zero _ => Finite 0%R
  | S754_finite s m e =>
      Finite (IZR (cond_Zopp s (Zpos m)) * powerRZ 2 e)%R
  | S754_infinity false => PosInfinity
  | S754_infinity true => NegInfinity
  | S754_nan => NotANumber
  end.

End JS.

(** ** GLSL: vectors, [mix], and the two shaders of the source *)

Module GLSL.

Local Open Scope R_scope.

Definition vec2 : Type := R * R.
Record vec3 : Type := mkvec3 { x3 : R; y3 : R; z3 : R }.
Record vec4 : Type := mkvec4 { r4 : R; g4 : R; b4 : R; a4 : R }.

(** The swizzle [v.rgb] and the constructor [vec4(v, a)]. *)
Definition rgb (v : vec4) : vec3 := mkvec3 (r4 v) (g4 v) (b4 v).
Definition vec4_of (v : vec3) (a : R) : vec4 := mkvec4 (x3 v) (y3 v) (z3 v) a.

(** The built-in [mix(x, y, a)]: component-wise [x * (1 - a) + y * a]. *)
Definition mix1 (x y a : R) : R := x * (1 - a) + y * a.
Definition mix (x y : vec3) (a : R) : vec3 :=
  mkvec3 (mix1 (x3 x) (x3 y) a) (mix1 (y3 x) (y3 y) a) (mix1 (z3 x) (z3 y) a).

(** A bound sampler is the image it reads; [texture2D] looks a coordinate
    up in it.  Images are functions of the continuous coordinate, so texel
    quantisation and filtering are not modelled. *)
Definition sampler2D : Type := vec2 -> vec4.
Definition texture2D (s : sampler2D) (uv : vec2) : vec4 := s uv.

(** [fragmentShader]: the material of the internal full-screen pass.
    The result is [gl_FragColor]. *)
Definition fragmentShader
    (currentFrame previousFrame : sampler2D) (trailAmount : R)
    (trailEnabled : bool) (vUv : vec2) : vec4 :=
  let current := texture2D currentFrame vUv in
  if trailEnabled then
    let previous := texture2D previousFrame vUv in
    let decay := exp (- trailAmount * 0.2) in
    let blended := mix (rgb current) (rgb previous) decay in
    vec4_of blended 1.0
  else
    current.

(** [mainImageShader]: the effect's own shader, run by the host's effect
    pass.  [inputColor] is accepted and not read; the result is
    [outputColor]. *)
Definition mainImageShader
    (previousFrame currentFrame : sampler2D) (trailAmount : R)
    (trailEnabled : bool) (inputColor : vec4) (uv : vec2) : vec4 :=
  let current := texture2D currentFrame uv in
  if trailEnabled then
    let previous := texture2D previousFrame uv in
    let decay := exp (- trailAmount * 0.2) in
    let blended := mix (rgb current) (rgb previous) decay in
    vec4_of blended 1.0
  else
    current.

End GLSL.

(** ** postprocessing: the [BlendFunction] enumeration *)

Inductive BlendFunction : Type :=
  | SKIP | ADD | ALPHA | AVERAGE | COLOR | COLOR_BURN | COLOR_DODGE | DARKEN
  | DIFFERENCE | DIVIDE | DST | EXCLUSION | HARD_LIGHT | HARD_MIX | HUE
  | INVERT | INVERT_RGB | LIGHTEN | LINEAR_BURN | LINEAR_DODGE | LINEAR_LIGHT
  | LUMINOSITY | MULTIPLY | NEGATION | NORMAL | OVERLAY | PIN_LIGHT | REFLECT
  | SATURATION | SCREEN | SOFT_LIGHT | SRC | SUBTRACT | VIVID_LIGHT.

Definition BlendFunction_eq_dec (a b : BlendFunction) : {a = b} + {a <> b}.
Proof. decide equality. Defined.

(** [a !== b] on enumeration members. *)
Definition BlendFunction_neq (a b : BlendFunction) : bool :=
  if BlendFunction_eq_dec a b then false else true.

(** ** three.js: render targets, shader uniforms and the renderer *)

Module Three.

Import GLSL.
Local Open Scope R_scope.

(** Object identity of a render target.  The effect allocates two of its
    own in its constructor; every other target belongs to the host. *)
Inductive TargetId : Type :=
  | TrailTarget1
  | TrailTarget2
  | HostTarget (n : nat).

Definition TargetId_eq_dec (a b : TargetId) : {a = b} + {a <> b}.
Proof. decide equality; apply Nat.eq_dec. Defined.

(** A texture is named by the render target it is the colour attachment
    of ([target.texture]). *)
Definition Texture : Type := TargetId.

(** [THREE.WebGLRenderTarget]: its identity and the size it reports. *)
Record WebGLRenderTarget : Type := mkTarget {
  rt_id : TargetId;
  width : JS.number;
  height : JS.number
}.

Definition texture (t : WebGLRenderTarget) : Texture := rt_id t.

(** [target.setSize(width, height)]. *)
Definition target_setSize (w h : JS.number) (t : WebGLRenderTarget)
  : WebGLRenderTarget :=
  mkTarget (rt_id t) w h.

(** The uniforms both shaders declare; a sampler uniform holds a texture
    or [null]. *)
Record Uniforms : Type := mkUniforms {
  currentFrame : option Texture;
  previousFrame : option Texture;
  trailAmount : JS.number;
  trailEnabled : bool
}.

Definition set_currentFrame (v : option Texture) (u : Uniforms) : Uniforms :=
  mkUniforms v (previousFrame u) (trailAmount u) (trailEnabled u).
Definition set_previousFrame (v : option Texture) (u : Uniforms) : Uniforms :=
  mkUniforms (currentFrame u) v (trailAmount u) (trailEnabled u).
Definition set_trailAmount (v : JS.number) (u : Uniforms) : Uniforms :=
  mkUniforms (currentFrame u) (previousFrame u) v (trailEnabled u).
Definition set_trailEnabled (v : bool) (u : Uniforms) : Uniforms :=
  mkUniforms (currentFrame u) (previousFrame u) (trailAmount u) v.

Definition image : Type := vec2 -> vec4.

(** One full-screen pass as the renderer executed it: the framebuffer it
    drew into and the uniform values it drew with. *)
Record Pass : Type := mkPass {
  pass_target : option TargetId;
  pass_uniforms : Uniforms
}.

(** [THREE.WebGLRenderer], as far as the effect touches it: the active
    render target ([None] is the canvas), the colour contents of every
    framebuffer, the clear colour, the texel a sampler bound to [null]
    reads, the drawing buffer size, the passes drawn so far (newest
    first), and [beyondReals]: the colour the device's arithmetic yields
    from a current and a previous texel when the decay weight is no real
    number (the amount is [-Infinity] or NaN).  The last is a property of
    the device; no theorem assumes anything about it. *)
Record WebGLRenderer : Type := mkRenderer {
  activeTarget : option TargetId;
  pixels : option TargetId -> image;
  clearColor : vec4;
  emptyTexel : vec4;
  drawingBufferSize : JS.number * JS.number;
  passes : list Pass;
  beyondReals : JS.number -> vec4 -> vec4 -> vec4
}.

Definition option_TargetId_eqb (a b : option TargetId) : bool :=
  match a, b with
  | None, None => true
  | Some x, Some y => if TargetId_eq_dec x y then true else false
  | _, _ => false
  end.

Definition store (t : option TargetId) (img : image)
    (p : option TargetId -> image) : option TargetId -> image :=
  fun t' => if option_TargetId_eqb t t' then img else p t'.

Definition getRenderTarget (r : WebGLRenderer) : option TargetId :=
  activeTarget r.

Definition setRenderTarget (t : option TargetId) (r : WebGLRenderer)
  : WebGLRenderer :=
  mkRenderer t (pixels r) (clearColor r) (emptyTexel r)
             (drawingBufferSize r) (passes r) (beyondReals r).

(** The image every cleared buffer holds. *)
Definition baseline (r : WebGLRenderer) : image := fun _ => clearColor r.

(** [renderer.clear()]: the active framebuffer is filled with the clear
    colour. *)
Definition clear (r : WebGLRenderer) : WebGLRenderer :=
  mkRenderer (activeTarget r) (store (activeTarget r) (baseline r) (pixels r))
             (clearColor r) (emptyTexel r) (drawingBufferSize r) (passes r)
             (beyondReals r).

(** What a sampler uniform reads in this context. *)
Definition sampler (r : WebGLRenderer) (t : option Texture) : sampler2D :=
  match t with
  | Some id => pixels r (Some id)
  | None => fun _ => emptyTexel r
  end.

(** What either shader yields from its two texels when the amount is not
    finite.  The disabled branch does not read the amount.  In the enabled
    branch an amount of [+Infinity] makes [exp (-trailAmount * 0.2)] equal
    to 0, so [mix] returns the current colour; for [-Infinity] and NaN the
    weight is no real number and the device decides. *)
Definition shade_beyond (r : WebGLRenderer) (amount : JS.number)
    (enabled : bool) (current previous : vec4) : vec4 :=
  if enabled then
    match JS.read amount with
    | JS.PosInfinity => vec4_of (rgb current) 1.0
    | _ => beyondReals r amount current previous
    end
  else current.

(** The colour [fragmentShader] produces at [uv] under uniforms [u]: the
    shader itself on the real the amount denotes when it is finite. *)
Definition fragment (r : WebGLRenderer) (u : Uniforms) : image :=
  fun uv =>
    match JS.read (trailAmount u) with
    | JS.Finite a =>
        fragmentShader (sampler r (currentFrame u))
                       (sampler r (previousFrame u)) a (trailEnabled u) uv
    | _ =>
        shade_beyond r (trailAmount u) (trailEnabled u)
                     (sampler r (currentFrame u) uv)
                     (sampler r (previousFrame u) uv)
    end.

(** Fixed-function blending.  The material is created with
    [transparent: true] and the default blending mode, so the fragment
    colour is laid over what the framebuffer holds, weighted by its own
    alpha; depth test and depth write are off. *)
Definition blend (src dst : vec4) : vec4 :=
  mkvec4 (r4 src * a4 src + r4 dst * (1 - a4 src))
         (g4 src * a4 src + g4 dst * (1 - a4 src))
         (b4 src * a4 src + b4 dst * (1 - a4 src))
         (a4 src + a4 dst * (1 - a4 src)).

(** [renderer.render(postFXScene, orthoCamera)]: the scene is one plane
    covering the whole clip space, drawn with the material whose uniforms
    are [u]; every pixel of the active framebuffer receives the fragment
    colour blended over its former content, all texels being read from
    the contents before the pass.  The pass is recorded. *)
Definition render (u : Uniforms) (r : WebGLRenderer) : WebGLRenderer :=
  mkRenderer (activeTarget r)
             (store (activeTarget r)
                    (fun uv => blend (fragment r u uv)
                                     (pixels r (activeTarget r) uv))
                    (pixels r))
             (clearColor r) (emptyTexel r) (drawingBufferSize r)
             (mkPass (activeTarget r) u :: passes r) (beyondReals r).

End Three.

(** ** The [TrailEffect] class *)

Module TrailEffect.

Import GLSL Three.

(** [TrailEffectOptions]: every field may be absent. *)
Module Options.
Record t : Type := mk {
  trailAmount : option JS.number;
  trailEnabled : option bool;
  resolutionScale : option JS.number;
  blendFunction : option BlendFunction
}.
(** The object literal with no field, [{}]. *)
Definition empty : t := mk None None None None.
End Options.

Definition RendererId : Type := nat.

(** The fields of an instance.  [uniforms] is the map handed to the base
    class, [blendMode] the base class's blend function, [material] the
    uniforms of [postFXMesh.material]. *)
Record t : Type := mk {
  uniforms : Uniforms;
  blendMode : BlendFunction;
  renderTargetA : WebGLRenderTarget;
  renderTargetB : WebGLRenderTarget;
  resolutionScale : JS.number;
  _localRenderer : option RendererId;
  _blendFunction : BlendFunction;
  material : Uniforms
}.

(** The effect together with the renderers of the host; the effect holds
    a renderer by reference. *)
Record World : Type := mkWorld {
  effect : t;
  renderers : RendererId -> WebGLRenderer
}.

Definition set_renderer (rid : RendererId) (r : WebGLRenderer)
    (g : RendererId -> WebGLRenderer) : RendererId -> WebGLRenderer :=
  fun i => if Nat.eqb rid i then r else g i.

(** A destructuring default: the value when present, else the default. *)
Definition default {A : Type} (d : A) (o : option A) : A :=
  match o with Some v => v | None => d end.

Definition constructor (options : Options.t) : t :=
  let trailAmount := default 95%float (Options.trailAmount options) in
  let trailEnabled := default true (Options.trailEnabled options) in
  let resolutionScale := default 0.5%float (Options.resolutionScale options) in
  let blendFunction := default LIGHTEN (Options.blendFunction options) in
  let uniforms :=
    mkUniforms None None (trailAmount / 100)%float trailEnabled in
  let postFXMaterial :=
    mkUniforms None None (trailAmount / 100)%float trailEnabled in
  mk uniforms blendFunction
     (mkTarget TrailTarget1 1%float 1%float)
     (mkTarget TrailTarget2 1%float 1%float)
     resolutionScale None blendFunction postFXMaterial.

Definition clearRenderTargets (rid : RendererId) (w : World) : World :=
  let e := effect w in
  let renderer := renderers w rid in
  let oldTarget := getRenderTarget renderer in
  let renderer := setRenderTarget (Some (rt_id (renderTargetA e))) renderer in
  let renderer := clear renderer in
  let renderer := setRenderTarget (Some (rt_id (renderTargetB e))) renderer in
  let renderer := clear renderer in
  let renderer := setRenderTarget oldTarget renderer in
  mkWorld e (set_renderer rid renderer (renderers w)).

Definition setSize (width height : JS.number) (w : World) : World :=
  let e := effect w in
  let scaledWidth := JS.Math_floor (width * resolutionScale e)%float in
  let scaledHeight := JS.Math_floor (height * resolutionScale e)%float in
  let e := mk (uniforms e) (blendMode e)
              (target_setSize scaledWidth scaledHeight (renderTargetA e))
              (target_setSize scaledWidth scaledHeight (renderTargetB e))
              (resolutionScale e) (_localRenderer e) (_blendFunction e)
              (material e) in
  let w := mkWorld e (renderers w) in
  match _localRenderer e with
  | Some rid => clearRenderTargets rid w
  | None => w
  end.

Definition initialize (renderer : RendererId) (alpha : bool)
    (frameBufferType : nat) (w : World) : World :=
  let e := effect w in
  let e := mk (uniforms e) (blendMode e) (renderTargetA e) (renderTargetB e)
              (resolutionScale e) (Some renderer) (_blendFunction e)
              (material e) in
  let w := mkWorld e (renderers w) in
  let size := drawingBufferSize (renderers w renderer) in
  let w := setSize (fst size) (snd size) w in
  clearRenderTargets renderer w.

Definition swapRenderTargets (e : t) : t :=
  mk (uniforms e) (blendMode e) (renderTargetB e) (renderTargetA e)
     (resolutionScale e) (_localRenderer e) (_blendFunction e) (material e).

Definition updateUniforms (inputBuffer : WebGLRenderTarget) (e : t) : t :=
  let inputTexture := texture inputBuffer in
  let previousTexture := texture (renderTargetB e) in
  let m := set_currentFrame (Some inputTexture) (material e) in
  let m := set_previousFrame (Some previousTexture) m in
  let u := set_currentFrame (Some inputTexture) (uniforms e) in
  let u := set_previousFrame (Some previousTexture) u in
  mk u (blendMode e) (renderTargetA e) (renderTargetB e)
     (resolutionScale e) (_localRenderer e) (_blendFunction e) m.

Definition update (renderer : RendererId) (inputBuffer : WebGLRenderTarget)
    (deltaTime : JS.number) (w : World) : World :=
  let e := effect w in
  let r := renderers w renderer in
  let r := setRenderTarget (Some (rt_id (renderTargetA e))) r in
  let r := render (material e) r in
  let e := swapRenderTargets e in
  let e := updateUniforms inputBuffer e in
  mkWorld e (set_renderer renderer r (renderers w)).

Definition resetRenderTargets (w : World) : World :=
  match _localRenderer (effect w) with
  | Some rid => clearRenderTargets rid w
  | None => w
  end.

Definition updateBlendFunction (blendFunction : BlendFunction) (e : t) : t :=
  mk (uniforms e) blendFunction (renderTargetA e) (renderTargetB e)
     (resolutionScale e) (_localRenderer e) blendFunction (material e).

Definition updateOptions
    (trailAmount : option JS.number) (trailEnabled : option bool)
    (resolutionScale' : option JS.number)
    (blendFunction : option BlendFunction) (w : World) : World :=
  let e := effect w in
  let e :=
    match trailAmount with
    | Some trailAmount =>
        let normalizedValue := (trailAmount / 100)%float in
        mk (set_trailAmount normalizedValue (uniforms e)) (blendMode e)
           (renderTargetA e) (renderTargetB e) (resolutionScale e)
           (_localRenderer e) (_blendFunction e)
           (set_trailAmount normalizedValue (material e))
    | None => e
    end in
  let e :=
    match trailEnabled with
    | Some trailEnabled =>
        mk (set_trailEnabled trailEnabled (uniforms e)) (blendMode e)
           (renderTargetA e) (renderTargetB e) (resolutionScale e)
           (_localRenderer e) (_blendFunction e)
           (set_trailEnabled trailEnabled (material e))
    | None => e
    end in
  let w := mkWorld e (renderers w) in
  let w :=
    match resolutionScale' with
    | Some s =>
        if JS.strict_neq s (resolutionScale (effect w)) then
          let e := effect w in
          let e := mk (uniforms e) (blendMode e) (renderTargetA e)
                      (renderTargetB e) s (_localRenderer e)
                      (_blendFunction e) (material e) in
          let w := mkWorld e (renderers w) in
          match _localRenderer e with
          | Some rid =>
              let size := drawingBufferSize (renderers w rid) in
              setSize (fst size) (snd size) w
          | None => w
          end
        else w
    | None => w
    end in
  match blendFunction with
  | Some f =>
      if BlendFunction_neq f (_blendFunction (effect w)) then
        mkWorld (updateBlendFunction f (effect w)) (renderers w)
      else w
  | None => w
  end.

End TrailEffect.

(** ** The host: how the effect is driven and read *)

Module Host.

Import GLSL Three TrailEffect.

(** The effect pass of the host draws [mainImageShader] with the uniforms
    the effect handed to its base class. *)
Definition mainImage (r : WebGLRenderer) (u : Uniforms) (inputColor : vec4)
  : image :=
  fun uv =>
    match JS.read (trailAmount u) with
    | JS.Finite a =>
        mainImageShader (sampler r (previousFrame u))
                        (sampler r (currentFrame u)) a (trailEnabled u)
                        inputColor uv
    | _ =>
        shade_beyond r (trailAmount u) (trailEnabled u)
                     (sampler r (currentFrame u) uv)
                     (sampler r (previousFrame u) uv)
    end.

(** The image the effect puts out on renderer [rid] in world [w]. *)
Definition output (rid : RendererId) (w : World) (inputColor : vec4) : image :=
  mainImage (renderers w rid) (uniforms (effect w)) inputColor.

(** The most recent full-screen pass renderer [rid] executed. *)
Definition drawn (rid : RendererId) (w : World) : option Pass :=
  hd_error (passes (renderers w rid)).

(** The public methods a host may call. *)
Inductive Call : Type :=
  | Initialize (renderer : RendererId) (alpha : bool) (frameBufferType : nat)
  | Step (renderer : RendererId) (inputBuffer : WebGLRenderTarget)
         (deltaTime : JS.number)
  | SetSize (width height : JS.number)
  | UpdateOptions (trailAmount : option JS.number) (trailEnabled : option bool)
                  (resolutionScale : option JS.number)
                  (blendFunction : option BlendFunction)
  | ResetBuffers.

Definition call (c : Call) (w : World) : World :=
  match c with
  | Initialize r a f => initialize r a f w
  | Step r i d => update r i d w
  | SetSize x y => setSize x y w
  | UpdateOptions a e s b => updateOptions a e s b w
  | ResetBuffers => resetRenderTargets w
  end.

Definition run (cs : list Call) (w : World) : World :=
  fold_left (fun w c => call c w) cs w.

(** [n] consecutive frames on one renderer. *)
Definition steps (rid : RendererId)
    (frames : list (WebGLRenderTarget * JS.number)) (w : World) : World :=
  fold_left (fun w f => update rid (fst f) (snd f) w) frames w.

(** The viewport size the buffers were last sized from: the arguments of
    [setSize], or the drawing buffer size [initialize] and [updateOptions]
    read from the renderer.  The effect does not store it; it is tracked
    beside the world. *)
Definition Size : Type := (JS.number * JS.number)%type.

Definition viewport_after (c : Call) (w : World) (v : option Size)
  : option Size :=
  match c with
  | Initialize r _ _ => Some (drawingBufferSize (renderers w r))
  | SetSize x y => Some (x, y)
  | UpdateOptions _ _ (Some s) _ =>
      if JS.strict_neq s (resolutionScale (effect w)) then
        match _localRenderer (effect w) with
        | Some rid => Some (drawingBufferSize (renderers w rid))
        | None => v
        end
      else v
  | _ => v
  end.

Fixpoint viewport (cs : list Call) (w : World) (v : option Size)
  : option Size :=
  match cs with
  | [] => v
  | c :: cs' => viewport cs' (call c w) (viewport_after c w v)
  end.

(** The world right after [new TrailEffect(options)]. *)
Definition start (options : Options.t) (g : RendererId -> WebGLRenderer)
  : World :=
  mkWorld (constructor options) g.

(** *** Properties of buffers *)

Definition same_size (a b : WebGLRenderTarget) : Prop :=
  width a = width b /\ height a = height b.

Definition sized_from (v : Size) (scale : JS.number) (t : WebGLRenderTarget)
  : Prop :=
  width t = JS.Math_floor (fst v * scale)%float /\
  height t = JS.Math_floor (snd v * scale)%float.

Definition at_least_1x1 (t : WebGLRenderTarget) : bool :=
  (PrimFloat.leb 1 (width t) && PrimFloat.leb 1 (height t))%bool.

Definition zero_area (t : WebGLRenderTarget) : bool :=
  PrimFloat.eqb (width t * height t)%float 0%float.

(** [x] lies in the interval (0, 1]. *)
Definition in_unit_interval (x : JS.number) : bool :=
  (PrimFloat.ltb 0 x && PrimFloat.leb x 1)%bool.

(** Both buffers hold the clear baseline in renderer [r]. *)
Definition cleared (r : WebGLRenderer) (e : TrailEffect.t) : Prop :=
  forall uv,
    pixels r (Some (rt_id (renderTargetA e))) uv = baseline r uv /\
    pixels r (Some (rt_id (renderTargetB e))) uv = baseline r uv.

(** The previous-frame samplers of the material and of the effect read
    the buffer in the history role. *)
Definition bound_to_history (e : TrailEffect.t) : Prop :=
  previousFrame (material e) = Some (rt_id (renderTargetB e)) /\
  previousFrame (uniforms e) = Some (rt_id (renderTargetB e)).

(** The buffer dimensions as the code keeps them: the two buffers are of
    one size, and once a renderer is known that size is the floor of the
    last viewport size times the stored scale. *)
Definition dimensions_kept (w : World) (v : option Size) : Prop :=
  same_size (renderTargetA (effect w)) (renderTargetB (effect w)) /\
  (forall rid, _localRenderer (effect w) = Some rid ->
     exists s, v = Some s /\
       sized_from s (resolutionScale (effect w)) (renderTargetA (effect w))).

(** The buffer dimensions as the specification words them: one size, the
    floor of viewport times scale once a viewport is known, never below
    1 x 1. *)
Definition dimensions_specified (w : World) (v : option Size) : Prop :=
  same_size (renderTargetA (effect w)) (renderTargetB (effect w)) /\
  (forall s, v = Some s ->
     sized_from s (resolutionScale (effect w)) (renderTargetA (effect w))) /\
  at_least_1x1 (renderTargetA (effect w)) = true /\
  at_least_1x1 (renderTargetB (effect w)) = true.

(** The state the specification gives a default-constructed instance. *)
Definition constructed_as_specified (e : TrailEffect.t) : Prop :=
  trailAmount (uniforms e) = (95 / 100)%float /\
  trailEnabled (uniforms e) = true /\
  resolutionScale e = 0.5%float /\
  blendMode e = LIGHTEN /\
  zero_area (renderTargetA e) = true /\
  zero_area (renderTargetB e) = true.

(** The state the constructor gives it. *)
Definition constructed_as_coded (e : TrailEffect.t) : Prop :=
  trailAmount (uniforms e) = (95 / 100)%float /\
  trailAmount (material e) = (95 / 100)%float /\
  trailEnabled (uniforms e) = true /\
  trailEnabled (material e) = true /\
  resolutionScale e = 0.5%float /\
  blendMode e = LIGHTEN /\
  _blendFunction e = LIGHTEN /\
  renderTargetA e = mkTarget TrailTarget1 1%float 1%float /\
  renderTargetB e = mkTarget TrailTarget2 1%float 1%float.

(** *** A concrete host *)

Definition transparent_black : vec4 := mkvec4 0 0 0 0.
Definition opaque_black : vec4 := mkvec4 0 0 0 1.

(** A renderer with an 800 x 600 drawing buffer, every framebuffer
    cleared to transparent black, drawing to the canvas. *)
Definition studio : WebGLRenderer :=
  mkRenderer None (fun _ _ => transparent_black) transparent_black
             opaque_black (800%float, 600%float) []
             (fun _ _ _ => transparent_black).

Definition red : vec4 := mkvec4 1 0 0 1.

(** The same renderer once the host has drawn a red frame into its
    target 0. *)
Definition stage : WebGLRenderer :=
  mkRenderer None
             (fun t _ => match t with
                         | Some (HostTarget 0) => red
                         | _ => transparent_black
                         end)
             transparent_black opaque_black (800%float, 600%float) []
             (fun _ _ _ => transparent_black).

(** The frame the host's render pass produced. *)
Definition frame : WebGLRenderTarget :=
  mkTarget (HostTarget 0) 800%float 600%float.

Definition origin : vec2 := (0%R, 0%R).

End Host.

(** ** The React integration, and notions used by the further properties *)

Module Integration.

Import GLSL Three TrailEffect Host.
Local Open Scope R_scope.

(** [handleResize] of [post-processing.tsx], as far as it reaches the
    effect: [setSize] with the new window size, then
    [resetRenderTargets]. *)
Definition handleResize (x y : JS.number) (w : World) : World :=
  resetRenderTargets (setSize x y w).

(** The two copies the class keeps of its parameters agree: the uniforms
    of the effect with those of the internal material, and the blend
    function of the base class with the private field. *)
Definition in_sync (e : TrailEffect.t) : Prop :=
  uniforms e = material e /\ blendMode e = _blendFunction e.

(** The two buffer fields hold the two targets the constructor allocated,
    one each. *)
Definition own_targets (e : TrailEffect.t) : Prop :=
  (rt_id (renderTargetA e) = TrailTarget1 /\
   rt_id (renderTargetB e) = TrailTarget2) \/
  (rt_id (renderTargetA e) = TrailTarget2 /\
   rt_id (renderTargetB e) = TrailTarget1).

(** The previous-frame sampler of the material is unbound or reads the
    history buffer. *)
Definition reads_history_or_nothing (e : TrailEffect.t) : Prop :=
  previousFrame (material e) = None \/
  previousFrame (material e) = Some (rt_id (renderTargetB e)).

(** The decay weight [exp (-trailAmount * 0.2)] for a stored amount, when
    it is a real number: the exponential for a finite amount, 0 for
    [+Infinity]; none for [-Infinity] and NaN. *)
Definition weight (amount : JS.number) : option R :=
  match JS.read amount with
  | JS.Finite a => Some (exp (- a * 0.2))
  | JS.PosInfinity => Some 0
  | _ => None
  end.

(** The weight of the default amount: [95 / 100] is the binary64 number
    8556839292003942 * 2^-53. *)
Definition default_weight : R :=
  exp (- (8556839292003942 * powerRZ 2 (-53)) * 0.2).

(** The effect is in the middle of a stream from the host texture [i]:
    the trail is on, the material reads [i] as current frame and the
    history buffer as previous frame, and the three textures are
    distinct. *)
Definition streaming (i : TargetId) (e : TrailEffect.t) : Prop :=
  trailEnabled (material e) = true /\
  currentFrame (material e) = Some i /\
  previousFrame (material e) = Some (rt_id (renderTargetB e)) /\
  rt_id (renderTargetA e) <> rt_id (renderTargetB e) /\
  i <> rt_id (renderTargetA e) /\
  i <> rt_id (renderTargetB e).

(** Two renderer states a host cannot tell apart. *)
Definition same_renderer (r r' : WebGLRenderer) : Prop :=
  activeTarget r = activeTarget r' /\
  (forall t uv, pixels r t uv = pixels r' t uv) /\
  clearColor r = clearColor r' /\
  emptyTexel r = emptyTexel r' /\
  drawingBufferSize r = drawingBufferSize r' /\
  passes r = passes r' /\
  beyondReals r = beyondReals r'.

(** The colour channels of [v] lie between those of [a] and [b]. *)
Definition between1 (a b x : R) : Prop := Rmin a b <= x <= Rmax a b.
Definition between (a b v : vec4) : Prop :=
  between1 (r4 a) (r4 b) (r4 v) /\
  between1 (g4 a) (g4 b) (g4 v) /\
  between1 (b4 a) (b4 b) (b4 v).

(** The options [a], [en], [s], [b] are already in force in [w]. *)
Definition in_force (a : option JS.number) (en : option bool)
    (s : option JS.number) (b : option BlendFunction) (w : World) : Prop :=
  (forall v, a = Some v ->
     trailAmount (uniforms (effect w)) = (v / 100)%float /\
     trailAmount (material (effect w)) = (v / 100)%float) /\
  (forall x, en = Some x ->
     trailEnabled (uniforms (effect w)) = x /\
     trailEnabled (material (effect w)) = x) /\
  (forall s0, s = Some s0 ->
     JS.strict_neq s0 (resolutionScale (effect w)) = true ->
     resolutionScale (effect w) = s0 /\
     forall rid, _localRenderer (effect w) = Some rid ->
       sized_from (drawingBufferSize (renderers w rid)) s0
                  (renderTargetA (effect w)) /\
       sized_from (drawingBufferSize (renderers w rid)) s0
                  (renderTargetB (effect w))) /\
  (forall f, b = Some f -> _blendFunction (effect w) = f).

(** A call other than [update]. *)
Definition not_a_frame (c : Call) : Prop :=
  match c with
  | Step _ _ _ => False
  | _ => True
  end.

(** Both samplers of the material are unbound. *)
Definition unbound (e : TrailEffect.t) : Prop :=
  currentFrame (material e) = None /\ previousFrame (material e) = None.

End Integration.

(** ** Verification *)

Import GLSL Three TrailEffect Host Integration.

(** *** Sanity of the number model *)

Example Math_floor_examples :
  JS.Math_floor 400.5%float = 400%float /\
  JS.Math_floor (-0.5)%float = (-1)%float /\
  JS.Math_floor (800 * 0.5)%float = 400%float /\
  JS.Math_floor (1 * 0.5)%float = 0%float /\
  JS.Math_floor PrimFloat.nan = PrimFloat.nan /\
  JS.Math_floor PrimFloat.infinity = PrimFloat.infinity.
Proof. vm_compute. repeat split. Qed.

Example read_examples :
  JS.read 1%float = JS.Finite 1%R /\
  JS.read 0%float = JS.Finite 0%R /\
  JS.read PrimFloat.infinity = JS.PosInfinity /\
  JS.read PrimFloat.neg_infinity = JS.NegInfinity /\
  JS.read PrimFloat.nan = JS.NotANumber.
Proof.
  split; [|repeat split].
  unfold JS.read.
  replace (Prim2SF 1%float) with (S754_finite false 4503599627370496 (-52))
    by (vm_compute; reflexivity).
  f_equal. simpl cond_Zopp. unfold powerRZ.
  replace (Pos.to_nat 52) with 52%nat by reflexivity.
  simpl pow. field_simplify_eq. reflexivity.
Qed.

(** *** What each method leaves alone *)

Lemma clearRenderTargets_effect rid w :
  effect (clearRenderTargets rid w) = effect w.
Proof. reflexivity. Qed.

Lemma setSize_effect x y w :
  effect (setSize x y w) =
  let e := effect w in
  let sw := JS.Math_floor (x * resolutionScale e)%float in
  let sh := JS.Math_floor (y * resolutionScale e)%float in
  mk (uniforms e) (blendMode e)
     (target_setSize sw sh (renderTargetA e))
     (target_setSize sw sh (renderTargetB e))
     (resolutionScale e) (_localRenderer e) (_blendFunction e) (material e).
Proof.
  unfold setSize; cbn.
  destruct (_localRenderer (effect w)); reflexivity.
Qed.

Lemma setSize_renderers_uninitialised x y w :
  _localRenderer (effect w) = None ->
  renderers (setSize x y w) = renderers w.
Proof. unfold setSize; cbn. intros ->. reflexivity. Qed.

Lemma setSize_initialised x y w rid :
  _localRenderer (effect w) = Some rid ->
  setSize x y w =
  clearRenderTargets rid
    (mkWorld (let e := effect w in
              let sw := JS.Math_floor (x * resolutionScale e)%float in
              let sh := JS.Math_floor (y * resolutionScale e)%float in
              mk (uniforms e) (blendMode e)
                 (target_setSize sw sh (renderTargetA e))
                 (target_setSize sw sh (renderTargetB e))
                 (resolutionScale e) (_localRenderer e) (_blendFunction e)
                 (material e))
             (renderers w)).
Proof. unfold setSize; cbn. intros ->. reflexivity. Qed.

Lemma set_renderer_same rid r g : set_renderer rid r g rid = r.
Proof. unfold set_renderer. now rewrite Nat.eqb_refl. Qed.

Lemma set_renderer_other rid rid' r g :
  rid <> rid' -> set_renderer rid r g rid' = g rid'.
Proof.
  unfold set_renderer. intros H.
  destruct (Nat.eqb_spec rid rid'); [contradiction | reflexivity].
Qed.

Lemma option_TargetId_eqb_refl t : option_TargetId_eqb t t = true.
Proof.
  destruct t as [t|]; cbn; [|reflexivity].
  destruct (TargetId_eq_dec t t); [reflexivity | contradiction].
Qed.

Lemma option_TargetId_eqb_eq a b : option_TargetId_eqb a b = true -> a = b.
Proof.
  destruct a as [a|], b as [b|]; cbn; try discriminate; [|reflexivity].
  destruct (TargetId_eq_dec a b); [congruence | discriminate].
Qed.

Lemma store_same t img p : store t img p t = img.
Proof. unfold store. now rewrite option_TargetId_eqb_refl. Qed.

Lemma store_other t t' img p : t <> t' -> store t img p t' = p t'.
Proof.
  unfold store. intros H.
  destruct (option_TargetId_eqb t t') eqn:E; [|reflexivity].
  apply option_TargetId_eqb_eq in E. contradiction.
Qed.

(** Clearing leaves every renderer's active target where it was. *)
Lemma clearRenderTargets_activeTarget rid w rid' :
  activeTarget (renderers (clearRenderTargets rid w) rid') =
  activeTarget (renderers w rid').
Proof.
  unfold clearRenderTargets; cbn.
  destruct (Nat.eq_dec rid rid') as [<- | N].
  - rewrite set_renderer_same. reflexivity.
  - rewrite set_renderer_other by assumption. reflexivity.
Qed.

(** Clearing fills both buffers of the renderer it is given. *)
Lemma clearRenderTargets_cleared rid w :
  cleared (renderers (clearRenderTargets rid w) rid)
          (effect (clearRenderTargets rid w)).
Proof.
  intros uv. unfold clearRenderTargets; cbn.
  rewrite set_renderer_same; cbn.
  split.
  - unfold store at 1.
    destruct (option_TargetId_eqb _ _); [reflexivity|].
    rewrite store_same. reflexivity.
  - rewrite store_same. reflexivity.
Qed.

Lemma setSize_activeTarget x y w rid' :
  activeTarget (renderers (setSize x y w) rid') =
  activeTarget (renderers w rid').
Proof.
  destruct (_localRenderer (effect w)) as [rid|] eqn:E.
  - rewrite (setSize_initialised x y w rid E).
    rewrite clearRenderTargets_activeTarget. reflexivity.
  - rewrite setSize_renderers_uninitialised by assumption. reflexivity.
Qed.

(** *** C5 *)

(** C5: whatever number [v] the caller gives as decay amount, at
    construction or through [updateOptions], the stored coefficient (the
    [trailAmount] uniform of the effect and of the internal material) is
    [v / 100]; no clamp is applied on the way. *)
Theorem decay_amount_stored_over_100 (v : JS.number) :
  (forall en rs bf,
     trailAmount (uniforms (constructor (Options.mk (Some v) en rs bf))) =
       (v / 100)%float /\
     trailAmount (material (constructor (Options.mk (Some v) en rs bf))) =
       (v / 100)%float) /\
  (forall en rs bf w,
     trailAmount (uniforms (effect (updateOptions (Some v) en rs bf w))) =
       (v / 100)%float /\
     trailAmount (material (effect (updateOptions (Some v) en rs bf w))) =
       (v / 100)%float).
Proof.
  split.
  - intros en rs bf. split; reflexivity.
  - intros en rs bf w.
    unfold updateOptions.
    destruct en as [en|], rs as [s|], bf as [f|]; cbn;
      repeat match goal with
        | |- context [if ?c then _ else _] => destruct c; cbn
        | |- context [match _localRenderer ?e with _ => _ end] =>
            destruct (_localRenderer e); cbn
        | |- context [effect (setSize ?x ?y ?w)] =>
            rewrite (setSize_effect x y w); cbn
        end; split; reflexivity.
Qed.

(** *** C8 *)

(** C8, as the specification words it, fails: the buffers of a
    default-constructed instance are 1 x 1, of area 1, not of area 0. *)
Lemma default_buffers_not_zero_area :
  ~ constructed_as_specified (constructor Options.empty).
Proof.
  intros (_ & _ & _ & _ & H & _).
  vm_compute in H. discriminate H.
Qed.

(** C8, amended: construction from the empty options object stores the
    decay amount 95 as [95 / 100], enables the trail, sets the resolution
    scale to 0.5 and the blend function to LIGHTEN, and allocates the two
    buffers at 1 x 1. *)
Theorem default_construction :
  constructed_as_coded (constructor Options.empty).
Proof. repeat split. Qed.

(** *** C9 *)

(** C9, as the specification words it, fails: a resolution scale of 0
    handed to [updateOptions] of an initialised effect is stored as 0,
    outside (0, 1], and the buffers are sized 0 x 0 with it. *)
Lemma resolution_scale_zero_not_clamped :
  let w := updateOptions None None (Some 0%float) None
             (initialize 0 false 0 (start Options.empty (fun _ => studio))) in
  in_unit_interval (resolutionScale (effect w)) = false /\
  resolutionScale (effect w) = 0%float /\
  width (renderTargetA (effect w)) = 0%float /\
  height (renderTargetA (effect w)) = 0%float.
Proof. vm_compute. repeat split. Qed.

(** C9, amended: [updateOptions] stores a resolution scale that differs
    ([!==]) from the current one exactly as given, whatever its value, and,
    when a renderer is known, sizes both buffers with it from the
    renderer's drawing buffer size; a scale equal to the current one
    changes nothing. *)
Theorem resolution_scale_stored_unclamped a en (s : JS.number) bf w :
  let w' := updateOptions a en (Some s) bf w in
  if JS.strict_neq s (resolutionScale (effect w)) then
    resolutionScale (effect w') = s /\
    match _localRenderer (effect w) with
    | Some rid =>
        sized_from (drawingBufferSize (renderers w rid)) s
                   (renderTargetA (effect w')) /\
        sized_from (drawingBufferSize (renderers w rid)) s
                   (renderTargetB (effect w'))
    | None =>
        renderTargetA (effect w') = renderTargetA (effect w) /\
        renderTargetB (effect w') = renderTargetB (effect w)
    end
  else
    resolutionScale (effect w') = resolutionScale (effect w) /\
    renderTargetA (effect w') = renderTargetA (effect w) /\
    renderTargetB (effect w') = renderTargetB (effect w).
Proof.
  cbv zeta. unfold updateOptions, sized_from.
  destruct a as [a|], en as [en|], bf as [f|]; cbn;
    destruct (JS.strict_neq s (resolutionScale (effect w))); cbn;
    destruct (_localRenderer (effect w)) as [rid|]; cbn;
    repeat match goal with
      | |- context [if ?c then _ else _] => destruct c; cbn
      | |- context [effect (setSize ?x ?y ?w)] =>
          rewrite (setSize_effect x y w); cbn
      end; repeat split.
Qed.

(** *** C6 *)

Lemma same_size_sym a b : same_size a b -> same_size b a.
Proof. intros [H1 H2]. split; symmetry; assumption. Qed.

Lemma sized_from_same_size v s a b :
  same_size a b -> sized_from v s a -> sized_from v s b.
Proof.
  intros [W H] [SW SH]. split; [rewrite <- W | rewrite <- H]; assumption.
Qed.

Lemma start_dimensions_kept options g :
  dimensions_kept (start options g) None.
Proof.
  split.
  - split; reflexivity.
  - intros rid H. discriminate H.
Qed.

Lemma setSize_dimensions_kept x y w :
  dimensions_kept (setSize x y w) (Some (x, y)).
Proof.
  unfold dimensions_kept. rewrite setSize_effect. cbn.
  split.
  - split; reflexivity.
  - intros rid _. exists (x, y). split; [reflexivity|]. split; reflexivity.
Qed.

Lemma initialize_dimensions_kept r a f w :
  dimensions_kept (initialize r a f w)
                  (Some (drawingBufferSize (renderers w r))).
Proof.
  unfold initialize, dimensions_kept.
  rewrite clearRenderTargets_effect, setSize_effect. cbn.
  split.
  - split; reflexivity.
  - intros rid _. eexists. split; [reflexivity|]. split; reflexivity.
Qed.

Lemma update_dimensions_kept r i d w v :
  dimensions_kept w v -> dimensions_kept (update r i d w) v.
Proof.
  intros [S K]. unfold dimensions_kept, update. cbn.
  split.
  - apply same_size_sym. exact S.
  - intros rid H. destruct (K rid H) as (s & -> & Z).
    exists s. split; [reflexivity|].
    apply (sized_from_same_size _ _ _ _ S Z).
Qed.

Lemma updateOptions_dimensions_kept a en s bf w v :
  dimensions_kept w v ->
  dimensions_kept (updateOptions a en s bf w)
                  (viewport_after (UpdateOptions a en s bf) w v).
Proof.
  intros [S K]. unfold dimensions_kept, updateOptions, viewport_after.
  destruct a as [a|], en as [en|], s as [s|], bf as [f|]; cbn;
    try destruct (JS.strict_neq s (resolutionScale (effect w))); cbn;
    try destruct (_localRenderer (effect w)) as [rid0|] eqn:L; cbn;
    repeat match goal with
      | |- context [if ?c then _ else _] => destruct c; cbn
      | |- context [effect (setSize ?x ?y ?w)] =>
          rewrite (setSize_effect x y w); cbn
      end;
    try rewrite L;
    (split;
     [ first [ exact S | split; reflexivity ]
     | first [ exact K
             | intros rid H; try discriminate H;
               first [ exact (K rid H)
                     | eexists; split; [reflexivity|]; split; reflexivity ] ] ]).
Qed.

Lemma resetRenderTargets_effect w : effect (resetRenderTargets w) = effect w.
Proof.
  unfold resetRenderTargets. destruct (_localRenderer (effect w)); reflexivity.
Qed.

Lemma call_dimensions_kept c w v :
  dimensions_kept w v ->
  dimensions_kept (call c w) (viewport_after c w v).
Proof.
  intros H. destruct c as [r a f | r i d | x y | a en s bf | ]; cbn [call].
  - apply initialize_dimensions_kept.
  - apply update_dimensions_kept. exact H.
  - apply setSize_dimensions_kept.
  - apply updateOptions_dimensions_kept. exact H.
  - unfold dimensions_kept. rewrite resetRenderTargets_effect. exact H.
Qed.

Lemma run_dimensions_kept cs : forall w v,
  dimensions_kept w v -> dimensions_kept (run cs w) (viewport cs w v).
Proof.
  induction cs as [|c cs IH]; intros w v H; cbn.
  - exact H.
  - apply IH. apply call_dimensions_kept. exact H.
Qed.

(** C6, as the specification words it, fails twice.  After
    [setSize (1, 1)] at the default scale 0.5 both buffers are 0 x 0, below
    1 x 1.  And before a renderer is known a new scale is stored without
    resizing: after [setSize (800, 600)] and a change of scale to 0.25 the
    buffers are still 400 x 300, not 200 x 150. *)
Lemma buffers_below_1x1 :
  ~ dimensions_specified
      (run [SetSize 1%float 1%float] (start Options.empty (fun _ => studio)))
      (viewport [SetSize 1%float 1%float]
                (start Options.empty (fun _ => studio)) None) /\
  ~ dimensions_specified
      (run [SetSize 800%float 600%float;
            UpdateOptions None None (Some 0.25%float) None]
           (start Options.empty (fun _ => studio)))
      (viewport [SetSize 800%float 600%float;
                 UpdateOptions None None (Some 0.25%float) None]
                (start Options.empty (fun _ => studio)) None).
Proof.
  split.
  - intros (_ & _ & H & _).
    vm_compute in H. discriminate H.
  - intros (_ & H & _).
    destruct (H (800%float, 600%float) eq_refl) as [W _].
    apply (f_equal (PrimFloat.eqb 400%float)) in W.
    vm_compute in W. discriminate W.
Qed.

(** C6, amended: after construction and after any sequence of
    [initialize], [update], [setSize], [updateOptions] and
    [resetRenderTargets] calls the two buffers have identical dimensions,
    and once a renderer is known these are [floor (viewportWidth *
    resolutionScale)] by [floor (viewportHeight * resolutionScale)] for the
    viewport size last supplied; every one of these calls preserves this.
    No lower bound of 1 x 1 is part of it. *)
Theorem buffer_dimensions_invariant :
  (forall options g, dimensions_kept (start options g) None) /\
  (forall c w v, dimensions_kept w v ->
                 dimensions_kept (call c w) (viewport_after c w v)) /\
  (forall options g cs,
     dimensions_kept (run cs (start options g))
                     (viewport cs (start options g) None)).
Proof.
  split; [exact start_dimensions_kept|].
  split; [exact call_dimensions_kept|].
  intros options g cs.
  apply run_dimensions_kept, start_dimensions_kept.
Qed.

(** *** C7 *)

(** C7, as the specification words it, fails: before [initialize] no
    renderer is known and [setSize] clears nothing.  One frame is drawn on
    a fresh effect, then [setSize (2, 2)] is called: the buffer drawn into
    keeps its opaque pixel where the baseline is transparent. *)
Lemma setSize_before_initialize_clears_nothing :
  let w1 := update 0 frame 0%float (start Options.empty (fun _ => studio)) in
  let w2 := setSize 2%float 2%float w1 in
  _localRenderer (effect w2) = None /\
  ~ cleared (renderers w2 0) (effect w2).
Proof.
  cbv zeta. split; [reflexivity|].
  intros H. destruct (H origin) as [_ HB].
  apply (f_equal a4) in HB. cbn in HB. lra.
Qed.

(** C7, amended: for every width and height [setSize] resizes both buffers
    to [floor (width * resolutionScale)] by [floor (height *
    resolutionScale)] and leaves the buffer roles and the texture bindings
    as they were; it may be called in any state; when a renderer is known
    (after [initialize]) it also clears both buffers to the baseline in that
    renderer, and before that it touches no renderer. *)
Theorem setSize_resizes_keeps_roles x y w :
  sized_from (x, y) (resolutionScale (effect w))
             (renderTargetA (effect (setSize x y w))) /\
  sized_from (x, y) (resolutionScale (effect w))
             (renderTargetB (effect (setSize x y w))) /\
  rt_id (renderTargetA (effect (setSize x y w))) =
    rt_id (renderTargetA (effect w)) /\
  rt_id (renderTargetB (effect (setSize x y w))) =
    rt_id (renderTargetB (effect w)) /\
  uniforms (effect (setSize x y w)) = uniforms (effect w) /\
  material (effect (setSize x y w)) = material (effect w) /\
  match _localRenderer (effect w) with
  | Some rid =>
      cleared (renderers (setSize x y w) rid) (effect (setSize x y w))
  | None => renderers (setSize x y w) = renderers w
  end.
Proof.
  assert (C : match _localRenderer (effect w) with
              | Some rid =>
                  cleared (renderers (setSize x y w) rid)
                          (effect (setSize x y w))
              | None => renderers (setSize x y w) = renderers w
              end).
  { destruct (_localRenderer (effect w)) as [rid|] eqn:E.
    - rewrite (setSize_initialised x y w rid E).
      apply (clearRenderTargets_cleared rid).
    - apply setSize_renderers_uninitialised. exact E. }
  revert C. rewrite setSize_effect. cbn. intros C.
  split; [split; reflexivity|].
  split; [split; reflexivity|].
  repeat (split; [reflexivity|]).
  exact C.
Qed.

(** *** C10 *)

(** C10: [clearRenderTargets] reads the active render target first and
    sets it back last, so [initialize], [setSize] and [resetRenderTargets]
    leave the active render target of every renderer as they found it. *)
Theorem clearing_restores_active_target (rid' : RendererId) :
  (forall rid w,
     activeTarget (renderers (clearRenderTargets rid w) rid') =
     activeTarget (renderers w rid')) /\
  (forall r a f w,
     activeTarget (renderers (initialize r a f w) rid') =
     activeTarget (renderers w rid')) /\
  (forall x y w,
     activeTarget (renderers (setSize x y w) rid') =
     activeTarget (renderers w rid')) /\
  (forall w,
     activeTarget (renderers (resetRenderTargets w) rid') =
     activeTarget (renderers w rid')).
Proof.
  split; [intros; apply clearRenderTargets_activeTarget|].
  split.
  - intros r a f w. unfold initialize.
    rewrite clearRenderTargets_activeTarget, setSize_activeTarget.
    reflexivity.
  - split.
    + intros. apply setSize_activeTarget.
    + intros w. unfold resetRenderTargets.
      destruct (_localRenderer (effect w)); [|reflexivity].
      apply clearRenderTargets_activeTarget.
Qed.

(** *** What one frame does *)

Lemma update_effect rid i d w :
  effect (update rid i d w) = updateUniforms i (swapRenderTargets (effect w)).
Proof. reflexivity. Qed.

Lemma update_renderer rid i d w :
  renderers (update rid i d w) rid =
  render (material (effect w))
         (setRenderTarget (Some (rt_id (renderTargetA (effect w))))
                          (renderers w rid)).
Proof. unfold update; cbn. apply set_renderer_same. Qed.

Lemma update_uniforms rid i d w :
  uniforms (effect (update rid i d w)) =
  mkUniforms (Some (texture i)) (Some (rt_id (renderTargetA (effect w))))
             (trailAmount (uniforms (effect w)))
             (trailEnabled (uniforms (effect w))).
Proof. reflexivity. Qed.

Lemma update_drawn rid i d w :
  drawn rid (update rid i d w) =
  Some (mkPass (Some (rt_id (renderTargetA (effect w)))) (material (effect w))).
Proof. unfold drawn. rewrite update_renderer. reflexivity. Qed.

Lemma update_written rid i d w uv :
  pixels (renderers (update rid i d w) rid)
         (Some (rt_id (renderTargetA (effect w)))) uv =
  blend (fragment (renderers w rid) (material (effect w)) uv)
        (pixels (renderers w rid) (Some (rt_id (renderTargetA (effect w)))) uv).
Proof.
  rewrite update_renderer. cbn. rewrite store_same. reflexivity.
Qed.

(** A fragment of alpha 1 replaces what it is blended over. *)
Lemma blend_opaque src dst : a4 src = 1%R -> blend src dst = src.
Proof.
  destruct src as [r g b a]. cbn. intros ->. unfold blend. cbn.
  f_equal; ring.
Qed.

(** Every call keeps the previous-frame samplers on the history buffer,
    and [update] puts them there. *)
Lemma update_bound_to_history rid i d w :
  bound_to_history (effect (update rid i d w)).
Proof. split; reflexivity. Qed.

Lemma call_bound_to_history c w :
  bound_to_history (effect w) -> bound_to_history (effect (call c w)).
Proof.
  intros H. destruct c as [r a f | r i d | x y | a en s bf | ]; cbn [call].
  - unfold initialize. rewrite clearRenderTargets_effect, setSize_effect.
    exact H.
  - apply update_bound_to_history.
  - rewrite setSize_effect. exact H.
  - unfold updateOptions.
    destruct a as [a|], en as [en|], s as [s|], bf as [f|]; cbn;
      repeat match goal with
        | |- context [if ?c then _ else _] => destruct c; cbn
        | |- context [match _localRenderer ?e with _ => _ end] =>
            destruct (_localRenderer e); cbn
        | |- context [effect (setSize ?x ?y ?w)] =>
            rewrite (setSize_effect x y w); cbn
        end; exact H.
  - rewrite resetRenderTargets_effect. exact H.
Qed.

Lemma run_bound_to_history cs : forall w,
  bound_to_history (effect w) -> bound_to_history (effect (run cs w)).
Proof.
  induction cs as [|c cs IH]; intros w H; cbn.
  - exact H.
  - apply IH, call_bound_to_history, H.
Qed.

Lemma update_untouched rid i d w t uv :
  t <> rt_id (renderTargetA (effect w)) ->
  pixels (renderers (update rid i d w) rid) (Some t) uv =
  pixels (renderers w rid) (Some t) uv.
Proof.
  intros N. rewrite update_renderer. cbn.
  rewrite store_other; [reflexivity | congruence].
Qed.

Lemma steps_app rid fs gs w :
  steps rid (fs ++ gs) w = steps rid gs (steps rid fs w).
Proof. apply fold_left_app. Qed.

Lemma firstn_snoc {A : Type} (l : list A) : forall k x,
  nth_error l k = Some x -> firstn (S k) l = firstn k l ++ [x].
Proof.
  induction l as [|a l IH]; intros [|k] x H; cbn in *; try discriminate.
  - injection H as ->. reflexivity.
  - f_equal. apply IH. exact H.
Qed.

(** *** C3 *)

(** C3: in any run of consecutive [update] calls, the buffer call K draws
    into is the write target [renderTargetA] of that moment, call K swaps
    the two roles after drawing and binds [previousFrame] (of the material
    and of the effect) to the buffer it has just drawn into, and the pass
    of call K+1 reads that very buffer as its previous frame. *)
Theorem write_target_becomes_history_source
    (rid : RendererId) (frames : list (WebGLRenderTarget * JS.number))
    (w : World) (K : nat) (fK fK1 : WebGLRenderTarget * JS.number) :
  nth_error frames K = Some fK ->
  nth_error frames (S K) = Some fK1 ->
  let before := steps rid (firstn K frames) w in
  let after := steps rid (firstn (S K) frames) w in
  let next := steps rid (firstn (S (S K)) frames) w in
  exists pK pK1,
    drawn rid after = Some pK /\
    drawn rid next = Some pK1 /\
    pass_target pK = Some (rt_id (renderTargetA (effect before))) /\
    previousFrame (pass_uniforms pK1) = pass_target pK /\
    previousFrame (material (effect after)) = pass_target pK /\
    previousFrame (uniforms (effect after)) = pass_target pK /\
    renderTargetB (effect after) = renderTargetA (effect before) /\
    renderTargetA (effect after) = renderTargetB (effect before).
Proof.
  intros HK HK1. cbv zeta.
  rewrite (firstn_snoc frames (S K) fK1 HK1).
  rewrite (firstn_snoc frames K fK HK).
  rewrite !steps_app.
  change (steps rid [fK1]) with (update rid (fst fK1) (snd fK1)).
  change (steps rid [fK]) with (update rid (fst fK) (snd fK)).
  eexists. eexists.
  split; [apply update_drawn|].
  split; [apply update_drawn|].
  repeat split.
Qed.

Lemma write_target_becomes_history_source_witness :
  exists pK pK1,
    drawn 0 (steps 0 [(frame, 0%float)] (start Options.empty (fun _ => studio)))
      = Some pK /\
    drawn 0 (steps 0 [(frame, 0%float); (frame, 0%float)]
                   (start Options.empty (fun _ => studio))) = Some pK1 /\
    pass_target pK = Some TrailTarget1 /\
    previousFrame (pass_uniforms pK1) = pass_target pK.
Proof.
  destruct (write_target_becomes_history_source
              0 [(frame, 0%float); (frame, 0%float)]
              (start Options.empty (fun _ => studio)) 0
              (frame, 0%float) (frame, 0%float) eq_refl eq_refl)
    as (pK & pK1 & H1 & H2 & H3 & H4 & _).
  exists pK, pK1. repeat split; assumption.
Defined.

(** *** C4 *)

(** C4, evaluated on the code: [update] draws first and rebinds the
    uniforms afterwards, so the pass of a call is drawn with the bindings
    the material held when the call began.  On the first call after
    construction [currentFrame] is still [null]; on a later call it is the
    input of the call before, not the input of this call. *)
Theorem pass_drawn_with_stale_bindings :
  (forall rid i d w,
     drawn rid (update rid i d w) =
     Some (mkPass (Some (rt_id (renderTargetA (effect w))))
                  (material (effect w)))) /\
  (forall options g rid i d,
     exists p, drawn rid (update rid i d (start options g)) = Some p /\
               currentFrame (pass_uniforms p) = None) /\
  (forall rid i d i' d' w,
     exists p, drawn rid (update rid i' d' (update rid i d w)) = Some p /\
               currentFrame (pass_uniforms p) = Some (texture i)) /\
  (exists p,
     drawn 0 (update 0 frame 0%float (start Options.empty (fun _ => studio)))
       = Some p /\
     currentFrame (pass_uniforms p) <> Some (texture frame)).
Proof.
  split; [exact update_drawn|].
  split; [|split].
  - intros. eexists. split; [apply update_drawn | reflexivity].
  - intros. eexists. split; [apply update_drawn | reflexivity].
  - eexists. split; [apply update_drawn | cbn; discriminate].
Qed.

(** *** C1 *)

(** The two shaders are one formula: with the trail enabled each returns
    [vec4 (mix (current.rgb, previous.rgb, exp (-trailAmount * 0.2)), 1.0)]. *)
Lemma shaders_blend cur prev amt ic uv :
  fragmentShader cur prev amt true uv =
    vec4_of (mix (rgb (cur uv)) (rgb (prev uv)) (exp (- amt * 0.2))) 1.0 /\
  mainImageShader prev cur amt true ic uv =
    vec4_of (mix (rgb (cur uv)) (rgb (prev uv)) (exp (- amt * 0.2))) 1.0.
Proof. split; reflexivity. Qed.

(** The colour of an enabled pass, for an amount whose weight is a real
    number: the blend of the two bound texels with that weight. *)
Lemma fragment_enabled r u dk uv :
  trailEnabled u = true -> weight (trailAmount u) = Some dk ->
  fragment r u uv =
  vec4_of (mix (rgb (sampler r (currentFrame u) uv))
               (rgb (sampler r (previousFrame u) uv)) dk) 1.0.
Proof.
  intros En W. unfold fragment, shade_beyond. unfold weight in W.
  rewrite En. destruct (JS.read (trailAmount u)); try discriminate W;
    injection W as <-.
  - reflexivity.
  - unfold vec4_of, mix, mix1, rgb; cbn. f_equal; ring.
Qed.

Lemma mainImage_enabled r u dk ic uv :
  trailEnabled u = true -> weight (trailAmount u) = Some dk ->
  mainImage r u ic uv =
  vec4_of (mix (rgb (sampler r (currentFrame u) uv))
               (rgb (sampler r (previousFrame u) uv)) dk) 1.0.
Proof.
  intros En W. unfold mainImage, shade_beyond. unfold weight in W.
  rewrite En. destruct (JS.read (trailAmount u)); try discriminate W;
    injection W as <-.
  - reflexivity.
  - unfold vec4_of, mix, mix1, rgb; cbn. f_equal; ring.
Qed.

Lemma weight_is_exp amount dk :
  weight amount = Some dk ->
  (forall a, JS.read amount = JS.Finite a -> dk = exp (- a * 0.2)) /\
  (JS.read amount = JS.PosInfinity -> dk = 0%R).
Proof.
  unfold weight. intros W. split.
  - intros a E. rewrite E in W. congruence.
  - intros E. rewrite E in W. congruence.
Qed.


Lemma default_weight_is_real :
  weight (95 / 100)%float = Some default_weight.
Proof.
  unfold weight, JS.read, default_weight.
  replace (Prim2SF (95 / 100)%float)
    with (S754_finite false 8556839292003942 (-53))
    by (vm_compute; reflexivity).
  reflexivity.
Qed.

(** The first pass on [stage] leaves the null-sampler colour, black, in
    the first buffer. *)
Lemma stage_first_pass :
  rgb (pixels (renderers
                 (update 0 frame 0%float
                    (start Options.empty (fun _ => stage))) 0)
              (Some TrailTarget1) origin) =
  rgb opaque_black.
Proof.
  pose proof (update_written
                0 frame 0%float (start Options.empty (fun _ => stage))
                origin) as P.
  cbn [start effect renderers constructor renderTargetA rt_id] in P.
  rewrite P.
  rewrite (fragment_enabled
             stage (material (constructor Options.empty)) default_weight
             origin eq_refl default_weight_is_real).
  rewrite blend_opaque by (cbn; lra).
  unfold vec4_of, mix, mix1, rgb, opaque_black; cbn. f_equal; ring.
Qed.


(** *** C2 *)

(** With the trail disabled each shader returns its current-frame texel,
    whatever the previous frame and the amount are. *)
Lemma shaders_bypass cur prev amt ic uv :
  fragmentShader cur prev amt false uv = cur uv /\
  mainImageShader prev cur amt false ic uv = cur uv.
Proof. split; reflexivity. Qed.

Lemma fragment_disabled r u uv :
  trailEnabled u = false -> fragment r u uv = sampler r (currentFrame u) uv.
Proof.
  intros En. unfold fragment, shade_beyond. rewrite En.
  destruct (JS.read (trailAmount u)); reflexivity.
Qed.

Lemma mainImage_disabled r u ic uv :
  trailEnabled u = false ->
  mainImage r u ic uv = sampler r (currentFrame u) uv.
Proof.
  intros En. unfold mainImage, shade_beyond. rewrite En.
  destruct (JS.read (trailAmount u)); reflexivity.
Qed.

(** C2: with the trail disabled, whatever the buffers and the renderer
    held before, the effect's output after [update] is at every coordinate
    the texel of the input image as it was handed in; the fragment colour
    of the pass drawn into the write target is its current-frame texel;
    and neither shader reads the previous frame or the decay amount: each
    returns the same colour for any other previous-frame sampler and
    amount. *)
Theorem bypass_identity rid i d w :
  trailEnabled (uniforms (effect w)) = false ->
  trailEnabled (material (effect w)) = false ->
  rt_id i <> rt_id (renderTargetA (effect w)) ->
  (forall ic uv,
     output rid (update rid i d w) ic uv =
     pixels (renderers w rid) (Some (texture i)) uv) /\
  (forall uv,
     fragment (renderers w rid) (material (effect w)) uv =
     sampler (renderers w rid) (currentFrame (material (effect w))) uv) /\
  (forall cur prev prev' amt amt' ic uv,
     mainImageShader prev cur amt false ic uv =
       mainImageShader prev' cur amt' false ic uv /\
     fragmentShader cur prev amt false uv =
       fragmentShader cur prev' amt' false uv).
Proof.
  intros Hu Hm N. split; [|split].
  - intros ic uv. unfold output. rewrite update_uniforms.
    rewrite mainImage_disabled by exact Hu.
    cbn [currentFrame sampler].
    apply update_untouched. exact N.
  - intros uv. apply fragment_disabled. exact Hm.
  - intros. split; reflexivity.
Qed.

Lemma bypass_identity_witness :
  output 0 (update 0 frame 0%float
              (start (Options.mk None (Some false) None None)
                     (fun _ => studio))) opaque_black origin =
  transparent_black.
Proof.
  refine (proj1 (bypass_identity
                  0 frame 0%float
                  (start (Options.mk None (Some false) None None)
                         (fun _ => studio))
                  eq_refl eq_refl
                  (fun H : HostTarget 0 = TrailTarget1 =>
                     eq_ind (HostTarget 0)
                            (fun t => match t with
                                      | HostTarget _ => True
                                      | _ => False
                                      end) I TrailTarget1 H))
                opaque_black origin).
Defined.

(** ** Further properties of the code *)

(** *** X1: what one frame touches *)

(** X1: [update] writes nothing but the write target of the renderer it
    is given and leaves that target active (it does not restore the
    active render target, unlike the clearing methods).  Every other
    framebuffer, the input and the history buffer included, every other
    renderer, the clear colour, the drawing buffer size and all options
    and buffer sizes of the effect stay as they were. *)
Theorem update_footprint rid i d w :
  activeTarget (renderers (update rid i d w) rid) =
    Some (rt_id (renderTargetA (effect w))) /\
  (forall t uv, t <> Some (rt_id (renderTargetA (effect w))) ->
     pixels (renderers (update rid i d w) rid) t uv =
     pixels (renderers w rid) t uv) /\
  (forall rid', rid' <> rid ->
     renderers (update rid i d w) rid' = renderers w rid') /\
  clearColor (renderers (update rid i d w) rid) =
    clearColor (renderers w rid) /\
  drawingBufferSize (renderers (update rid i d w) rid) =
    drawingBufferSize (renderers w rid) /\
  passes (renderers (update rid i d w) rid) =
    mkPass (Some (rt_id (renderTargetA (effect w)))) (material (effect w))
    :: passes (renderers w rid) /\
  resolutionScale (effect (update rid i d w)) = resolutionScale (effect w) /\
  _localRenderer (effect (update rid i d w)) = _localRenderer (effect w) /\
  blendMode (effect (update rid i d w)) = blendMode (effect w) /\
  trailAmount (uniforms (effect (update rid i d w))) =
    trailAmount (uniforms (effect w)) /\
  trailEnabled (uniforms (effect (update rid i d w))) =
    trailEnabled (uniforms (effect w)) /\
  trailAmount (material (effect (update rid i d w))) =
    trailAmount (material (effect w)) /\
  trailEnabled (material (effect (update rid i d w))) =
    trailEnabled (material (effect w)).
Proof.
  split; [rewrite update_renderer; reflexivity|].
  split.
  { intros t uv N. rewrite update_renderer. cbn.
    apply (f_equal (fun f => f uv)). apply store_other. congruence. }
  split.
  { intros rid' N. unfold update; cbn. apply set_renderer_other. congruence. }
  rewrite update_renderer. repeat split.
Qed.

(** *** X2: the roles alternate *)

Lemma steps_cons rid f fs w :
  steps rid (f :: fs) w = steps rid fs (update rid (fst f) (snd f) w).
Proof. reflexivity. Qed.

Lemma steps_roles rid frames : forall w,
  (Nat.even (length frames) = true ->
     renderTargetA (effect (steps rid frames w)) = renderTargetA (effect w) /\
     renderTargetB (effect (steps rid frames w)) = renderTargetB (effect w)) /\
  (Nat.even (length frames) = false ->
     renderTargetA (effect (steps rid frames w)) = renderTargetB (effect w) /\
     renderTargetB (effect (steps rid frames w)) = renderTargetA (effect w)).
Proof.
  induction frames as [|f fs IH]; intros w.
  - split; [intros _; split; reflexivity | cbn; discriminate].
  - rewrite steps_cons.
    destruct (IH (update rid (fst f) (snd f) w)) as [E O].
    change (length (f :: fs)) with (S (length fs)).
    rewrite Nat.even_succ, <- Nat.negb_even.
    destruct (Nat.even (length fs)); cbn [negb]; split; intros H;
      try discriminate H.
    + destruct (E eq_refl) as [HA HB]. rewrite HA, HB. split; reflexivity.
    + destruct (O eq_refl) as [HA HB]. rewrite HA, HB. split; reflexivity.
Qed.

(** X2: ping-pong.  After an even number of consecutive [update] calls
    each of the two buffers is back in the role it had, size included;
    after an odd number the two have changed places. *)
Theorem roles_alternate rid frames w :
  if Nat.even (length frames) then
    renderTargetA (effect (steps rid frames w)) = renderTargetA (effect w) /\
    renderTargetB (effect (steps rid frames w)) = renderTargetB (effect w)
  else
    renderTargetA (effect (steps rid frames w)) = renderTargetB (effect w) /\
    renderTargetB (effect (steps rid frames w)) = renderTargetA (effect w).
Proof.
  destruct (steps_roles rid frames w) as [E O].
  destruct (Nat.even (length frames)); [apply E | apply O]; reflexivity.
Qed.

(** *** X3: the two buffers stay the effect's own, and stay apart *)

Lemma start_own_targets options g : own_targets (effect (start options g)).
Proof. left. split; reflexivity. Qed.

Lemma call_own_targets c w :
  own_targets (effect w) -> own_targets (effect (call c w)).
Proof.
  intros H. destruct c as [r a f | r i d | x y | a en s bf | ]; cbn [call].
  - unfold initialize. rewrite clearRenderTargets_effect, setSize_effect.
    exact H.
  - destruct H as [[HA HB] | [HA HB]]; [right | left]; split; assumption.
  - rewrite setSize_effect. exact H.
  - unfold updateOptions.
    destruct a as [a|], en as [en|], s as [s|], bf as [f|]; cbn;
      repeat match goal with
        | |- context [if ?c then _ else _] => destruct c; cbn
        | |- context [match _localRenderer ?e with _ => _ end] =>
            destruct (_localRenderer e); cbn
        | |- context [effect (setSize ?x ?y ?w)] =>
            rewrite (setSize_effect x y w); cbn
        end; exact H.
  - rewrite resetRenderTargets_effect. exact H.
Qed.

Lemma run_own_targets cs : forall w,
  own_targets (effect w) -> own_targets (effect (run cs w)).
Proof.
  induction cs as [|c cs IH]; intros w H; cbn.
  - exact H.
  - apply IH, call_own_targets, H.
Qed.

Lemma start_reads_history_or_nothing options g :
  reads_history_or_nothing (effect (start options g)).
Proof. left. reflexivity. Qed.

Lemma call_reads_history_or_nothing c w :
  reads_history_or_nothing (effect w) ->
  reads_history_or_nothing (effect (call c w)).
Proof.
  intros H. destruct c as [r a f | r i d | x y | a en s bf | ]; cbn [call].
  - unfold initialize. rewrite clearRenderTargets_effect, setSize_effect.
    exact H.
  - right. reflexivity.
  - rewrite setSize_effect. exact H.
  - unfold updateOptions.
    destruct a as [a|], en as [en|], s as [s|], bf as [f|]; cbn;
      repeat match goal with
        | |- context [if ?c then _ else _] => destruct c; cbn
        | |- context [match _localRenderer ?e with _ => _ end] =>
            destruct (_localRenderer e); cbn
        | |- context [effect (setSize ?x ?y ?w)] =>
            rewrite (setSize_effect x y w); cbn
        end; exact H.
  - rewrite resetRenderTargets_effect. exact H.
Qed.

Lemma run_reads_history_or_nothing cs : forall w,
  reads_history_or_nothing (effect w) ->
  reads_history_or_nothing (effect (run cs w)).
Proof.
  induction cs as [|c cs IH]; intros w H; cbn.
  - exact H.
  - apply IH, call_reads_history_or_nothing, H.
Qed.

(** X3: in every state reached from construction by any calls, the two
    buffer fields hold the two targets the constructor allocated, one
    each; so a pass never reads, as previous frame, the buffer it draws
    into: the previous-frame sampler is unbound or reads the other
    buffer. *)
Theorem pass_never_reads_its_target options g cs rid i d :
  own_targets (effect (run cs (start options g))) /\
  rt_id (renderTargetA (effect (run cs (start options g)))) <>
    rt_id (renderTargetB (effect (run cs (start options g)))) /\
  exists p,
    drawn rid (update rid i d (run cs (start options g))) = Some p /\
    pass_target p =
      Some (rt_id (renderTargetA (effect (run cs (start options g))))) /\
    previousFrame (pass_uniforms p) <> pass_target p.
Proof.
  set (w := run cs (start options g)).
  assert (O : own_targets (effect w))
    by apply run_own_targets, start_own_targets.
  assert (N : rt_id (renderTargetA (effect w)) <>
              rt_id (renderTargetB (effect w))).
  { destruct O as [[HA HB] | [HA HB]]; rewrite HA, HB; discriminate. }
  split; [exact O|]. split; [exact N|].
  eexists. split; [apply update_drawn|]. cbn. split; [reflexivity|].
  destruct (run_reads_history_or_nothing cs (start options g)
              (start_reads_history_or_nothing options g)) as [H | H];
    fold w in H; rewrite H; [discriminate | congruence].
Qed.

(** *** X4: the two copies of the parameters *)

Ltac options_cases :=
  repeat first
    [ match goal with
      | |- context [JS.strict_neq ?a ?b] =>
          destruct (JS.strict_neq a b) eqn:?; cbn
      end
    | match goal with
      | |- context [match _localRenderer ?e with _ => _ end] =>
          destruct (_localRenderer e) eqn:?; cbn
      end
    | match goal with
      | |- context [effect (setSize ?x ?y ?w)] =>
          rewrite (setSize_effect x y w); cbn
      end
    | match goal with
      | |- context [BlendFunction_neq ?a ?b] =>
          destruct (BlendFunction_neq a b) eqn:?; cbn
      end ].

Lemma start_in_sync options g : in_sync (effect (start options g)).
Proof. split; reflexivity. Qed.

Lemma call_in_sync c w : in_sync (effect w) -> in_sync (effect (call c w)).
Proof.
  intros [U B]. destruct c as [r a f | r i d | x y | a en s bf | ];
    cbn [call].
  - unfold initialize. rewrite clearRenderTargets_effect, setSize_effect.
    split; assumption.
  - rewrite update_effect. unfold updateUniforms, in_sync; cbn.
    rewrite U. split; [reflexivity | exact B].
  - rewrite setSize_effect. split; assumption.
  - unfold updateOptions, in_sync.
    destruct a as [a|], en as [en|], s as [s|], bf as [f|]; cbn;
      options_cases; rewrite ?U; split; first [reflexivity | exact B].
  - rewrite resetRenderTargets_effect. split; assumption.
Qed.

Lemma run_in_sync cs : forall w,
  in_sync (effect w) -> in_sync (effect (run cs w)).
Proof.
  induction cs as [|c cs IH]; intros w H; cbn.
  - exact H.
  - apply IH, call_in_sync, H.
Qed.

(** X4: in every state reached from construction the uniforms of the
    effect (read by its own shader) and the uniforms of the internal
    material (read by the accumulation pass) are equal, texture bindings
    included, and the blend function of the base class equals the private
    [_blendFunction]: no call updates one copy without the other. *)
Theorem parameter_copies_in_sync options g cs :
  in_sync (effect (run cs (start options g))).
Proof. apply run_in_sync, start_in_sync. Qed.

(** *** X5: the blend function *)

Lemma BlendFunction_neq_false f g : BlendFunction_neq f g = false -> f = g.
Proof.
  unfold BlendFunction_neq.
  destruct (BlendFunction_eq_dec f g); [trivial | discriminate].
Qed.

Lemma BlendFunction_neq_refl f : BlendFunction_neq f f = false.
Proof.
  unfold BlendFunction_neq.
  destruct (BlendFunction_eq_dec f f); [reflexivity | contradiction].
Qed.

Lemma updateOptions_blendFunction a en s b w :
  _blendFunction (effect (updateOptions a en s b w)) =
    match b with
    | Some f => f
    | None => _blendFunction (effect w)
    end /\
  blendMode (effect (updateOptions a en s b w)) =
    match b with
    | Some f => if BlendFunction_neq f (_blendFunction (effect w))
                then f else blendMode (effect w)
    | None => blendMode (effect w)
    end.
Proof.
  unfold updateOptions.
  destruct a as [a|], en as [en|], s as [s|], b as [f|]; cbn;
    options_cases;
    repeat match goal with
      | H : BlendFunction_neq ?x ?y = false |- _ =>
          lazymatch goal with
          | _ : x = y |- _ => fail
          | _ => pose proof (BlendFunction_neq_false x y H)
          end
      end;
    split; congruence.
Qed.

(** X5: in every state reached from construction, [updateOptions] with a
    blend function makes it the blend function of the effect, whether or
    not it differs from the current one, and [updateOptions] without one
    leaves the blend function alone; neither changes a buffer's identity
    or the texture bindings. *)
Theorem blend_function_follows_options options g cs a en s f :
  blendMode (effect (updateOptions a en s (Some f)
                       (run cs (start options g)))) = f /\
  _blendFunction (effect (updateOptions a en s (Some f)
                            (run cs (start options g)))) = f /\
  blendMode (effect (updateOptions a en s None
                       (run cs (start options g)))) =
    blendMode (effect (run cs (start options g))) /\
  (forall b,
     rt_id (renderTargetA (effect (updateOptions a en s b
                                      (run cs (start options g))))) =
       rt_id (renderTargetA (effect (run cs (start options g)))) /\
     rt_id (renderTargetB (effect (updateOptions a en s b
                                      (run cs (start options g))))) =
       rt_id (renderTargetB (effect (run cs (start options g)))) /\
     currentFrame (material (effect (updateOptions a en s b
                                       (run cs (start options g))))) =
       currentFrame (material (effect (run cs (start options g)))) /\
     previousFrame (material (effect (updateOptions a en s b
                                        (run cs (start options g))))) =
       previousFrame (material (effect (run cs (start options g))))).
Proof.
  set (w := run cs (start options g)).
  assert (S : in_sync (effect w)) by apply run_in_sync, start_in_sync.
  destruct S as [_ B].
  destruct (updateOptions_blendFunction a en s (Some f) w) as [P M].
  destruct (updateOptions_blendFunction a en s None w) as [_ M'].
  split.
  { rewrite M. destruct (BlendFunction_neq f (_blendFunction (effect w)))
      eqn:E; [reflexivity|].
    apply BlendFunction_neq_false in E. congruence. }
  split; [exact P|]. split; [exact M'|].
  intros b. unfold updateOptions.
  destruct a as [a|], en as [en|], s as [s0|], b as [f0|]; cbn;
    options_cases; repeat split.
Qed.

(** *** X6: initialisation *)

Lemma clearRenderTargets_fields rid w rid' :
  clearColor (renderers (clearRenderTargets rid w) rid') =
    clearColor (renderers w rid') /\
  emptyTexel (renderers (clearRenderTargets rid w) rid') =
    emptyTexel (renderers w rid') /\
  drawingBufferSize (renderers (clearRenderTargets rid w) rid') =
    drawingBufferSize (renderers w rid') /\
  passes (renderers (clearRenderTargets rid w) rid') =
    passes (renderers w rid').
Proof.
  unfold clearRenderTargets; cbn.
  destruct (Nat.eq_dec rid rid') as [<- | N].
  - rewrite set_renderer_same. repeat split.
  - rewrite set_renderer_other by assumption. repeat split.
Qed.

Lemma clearRenderTargets_beyondReals rid w rid' :
  beyondReals (renderers (clearRenderTargets rid w) rid') =
  beyondReals (renderers w rid').
Proof.
  unfold clearRenderTargets; cbn.
  destruct (Nat.eq_dec rid rid') as [<- | N].
  - rewrite set_renderer_same. reflexivity.
  - rewrite set_renderer_other by assumption. reflexivity.
Qed.

(** The pixels after a clear: the clear colour in the two buffers, the
    former content everywhere else. *)
Lemma clearRenderTargets_pixels rid w t uv :
  pixels (renderers (clearRenderTargets rid w) rid) t uv =
  if (option_TargetId_eqb (Some (rt_id (renderTargetB (effect w)))) t ||
      option_TargetId_eqb (Some (rt_id (renderTargetA (effect w)))) t)%bool
  then clearColor (renderers w rid)
  else pixels (renderers w rid) t uv.
Proof.
  unfold clearRenderTargets; cbn -[option_TargetId_eqb].
  rewrite set_renderer_same; cbn -[option_TargetId_eqb].
  unfold store, baseline; cbn -[option_TargetId_eqb].
  destruct (option_TargetId_eqb (Some (rt_id (renderTargetB (effect w)))) t);
    [reflexivity|].
  destruct (option_TargetId_eqb (Some (rt_id (renderTargetA (effect w)))) t);
    reflexivity.
Qed.

Lemma clearRenderTargets_other rid w rid' :
  rid' <> rid ->
  renderers (clearRenderTargets rid w) rid' = renderers w rid'.
Proof.
  intros N. unfold clearRenderTargets; cbn.
  apply set_renderer_other. congruence.
Qed.

Lemma clearRenderTargets_passes rid w rid' :
  passes (renderers (clearRenderTargets rid w) rid') =
  passes (renderers w rid').
Proof. apply clearRenderTargets_fields. Qed.

Lemma setSize_passes x y w rid' :
  passes (renderers (setSize x y w) rid') = passes (renderers w rid').
Proof.
  destruct (_localRenderer (effect w)) as [rid|] eqn:E.
  - rewrite (setSize_initialised x y w rid E).
    rewrite clearRenderTargets_passes. reflexivity.
  - rewrite setSize_renderers_uninitialised by assumption. reflexivity.
Qed.

(** X6: [initialize] records the renderer, sizes both buffers to the
    floor of the renderer's drawing buffer size times the resolution
    scale, and leaves both buffers cleared in that renderer; the buffer
    roles, the uniforms, the scale and the blend function are as before,
    and no pass is drawn. *)
Theorem initialize_sizes_and_clears r a f w :
  _localRenderer (effect (initialize r a f w)) = Some r /\
  sized_from (drawingBufferSize (renderers w r)) (resolutionScale (effect w))
             (renderTargetA (effect (initialize r a f w))) /\
  sized_from (drawingBufferSize (renderers w r)) (resolutionScale (effect w))
             (renderTargetB (effect (initialize r a f w))) /\
  cleared (renderers (initialize r a f w) r) (effect (initialize r a f w)) /\
  rt_id (renderTargetA (effect (initialize r a f w))) =
    rt_id (renderTargetA (effect w)) /\
  rt_id (renderTargetB (effect (initialize r a f w))) =
    rt_id (renderTargetB (effect w)) /\
  uniforms (effect (initialize r a f w)) = uniforms (effect w) /\
  material (effect (initialize r a f w)) = material (effect w) /\
  resolutionScale (effect (initialize r a f w)) = resolutionScale (effect w) /\
  blendMode (effect (initialize r a f w)) = blendMode (effect w) /\
  passes (renderers (initialize r a f w) r) = passes (renderers w r).
Proof.
  assert (C : cleared (renderers (initialize r a f w) r)
                      (effect (initialize r a f w)))
    by apply clearRenderTargets_cleared.
  assert (P : passes (renderers (initialize r a f w) r) =
              passes (renderers w r)).
  { unfold initialize. rewrite clearRenderTargets_passes, setSize_passes.
    reflexivity. }
  revert C P. unfold initialize.
  rewrite clearRenderTargets_effect, setSize_effect. cbn. intros C P.
  split; [reflexivity|].
  split; [split; reflexivity|].
  split; [split; reflexivity|].
  split; [exact C|].
  repeat (split; [reflexivity|]). exact P.
Qed.

(** *** X7: resetting *)

(** X7: [resetRenderTargets] never changes the effect object.  With a
    renderer known it clears both buffers in that renderer, keeps every
    other framebuffer and every other renderer as they were, and draws no
    pass; before [initialize] it changes nothing at all. *)
Theorem resetRenderTargets_behaviour w :
  effect (resetRenderTargets w) = effect w /\
  match _localRenderer (effect w) with
  | Some rid =>
      cleared (renderers (resetRenderTargets w) rid) (effect w) /\
      (forall t uv,
         t <> Some (rt_id (renderTargetA (effect w))) ->
         t <> Some (rt_id (renderTargetB (effect w))) ->
         pixels (renderers (resetRenderTargets w) rid) t uv =
         pixels (renderers w rid) t uv) /\
      (forall rid', rid' <> rid ->
         renderers (resetRenderTargets w) rid' = renderers w rid') /\
      passes (renderers (resetRenderTargets w) rid) = passes (renderers w rid)
  | None => resetRenderTargets w = w
  end.
Proof.
  split; [apply resetRenderTargets_effect|].
  unfold resetRenderTargets.
  destruct (_localRenderer (effect w)) as [rid|]; [|reflexivity].
  split; [apply (clearRenderTargets_cleared rid w)|].
  split.
  { intros t uv NA NB. rewrite clearRenderTargets_pixels.
    destruct (option_TargetId_eqb
                (Some (rt_id (renderTargetB (effect w)))) t) eqn:EB.
    - apply option_TargetId_eqb_eq in EB. congruence.
    - destruct (option_TargetId_eqb
                  (Some (rt_id (renderTargetA (effect w)))) t) eqn:EA.
      + apply option_TargetId_eqb_eq in EA. congruence.
      + reflexivity. }
  split; [intros rid' N; apply clearRenderTargets_other; exact N|].
  apply clearRenderTargets_fields.
Qed.

(** *** X8: the resize handler *)

Lemma same_renderer_refl r : same_renderer r r.
Proof. repeat split. Qed.

(** Clearing a second time changes nothing a host can see. *)
Lemma clearRenderTargets_twice rid w rid' :
  same_renderer
    (renderers (clearRenderTargets rid (clearRenderTargets rid w)) rid')
    (renderers (clearRenderTargets rid w) rid').
Proof.
  destruct (Nat.eq_dec rid' rid) as [-> | N].
  - destruct (clearRenderTargets_fields rid (clearRenderTargets rid w) rid)
      as (C & E & D & P).
    pose proof (clearRenderTargets_beyondReals
                  rid (clearRenderTargets rid w) rid) as B.
    split; [apply clearRenderTargets_activeTarget|].
    split; [|repeat split; assumption].
    intros t uv.
    rewrite (clearRenderTargets_pixels rid (clearRenderTargets rid w)).
    rewrite clearRenderTargets_effect.
    destruct (clearRenderTargets_fields rid w rid) as (-> & _).
    rewrite (clearRenderTargets_pixels rid w).
    destruct (_ || _)%bool; reflexivity.
  - rewrite (clearRenderTargets_other rid (clearRenderTargets rid w) rid' N).
    apply same_renderer_refl.
Qed.

(** X8: in the resize handler of the React component the call of
    [resetRenderTargets] after [setSize] is redundant: [setSize] has
    already cleared both buffers, so the effect and every renderer (active
    target, every pixel, pass log) are as [setSize] alone leaves them. *)
Theorem handleResize_reset_is_redundant x y w rid' :
  effect (handleResize x y w) = effect (setSize x y w) /\
  same_renderer (renderers (handleResize x y w) rid')
                (renderers (setSize x y w) rid').
Proof.
  unfold handleResize.
  split; [apply resetRenderTargets_effect|].
  unfold resetRenderTargets.
  rewrite (setSize_effect x y w) at 1. cbn [_localRenderer].
  destruct (_localRenderer (effect w)) as [rid|] eqn:E.
  - rewrite (setSize_initialised x y w rid E).
    apply clearRenderTargets_twice.
  - apply same_renderer_refl.
Qed.

(** *** X9: supplying the options again *)

Lemma setSize_drawingBufferSize x y w rid' :
  drawingBufferSize (renderers (setSize x y w) rid') =
  drawingBufferSize (renderers w rid').
Proof.
  destruct (_localRenderer (effect w)) as [rid|] eqn:E.
  - rewrite (setSize_initialised x y w rid E).
    destruct (clearRenderTargets_fields rid
                (mkWorld
                   (let e := effect w in
                    let sw := JS.Math_floor (x * resolutionScale e)%float in
                    let sh := JS.Math_floor (y * resolutionScale e)%float in
                    mk (uniforms e) (blendMode e)
                       (target_setSize sw sh (renderTargetA e))
                       (target_setSize sw sh (renderTargetB e))
                       (resolutionScale e) (_localRenderer e)
                       (_blendFunction e) (material e))
                   (renderers w)) rid') as (_ & _ & D & _).
    exact D.
  - rewrite setSize_renderers_uninitialised by assumption. reflexivity.
Qed.

Lemma uniforms_eta (u : Uniforms) :
  mkUniforms (currentFrame u) (previousFrame u) (trailAmount u)
             (trailEnabled u) = u.
Proof. destruct u; reflexivity. Qed.

Lemma effect_eta (e : TrailEffect.t) :
  mk (uniforms e) (blendMode e) (renderTargetA e) (renderTargetB e)
     (resolutionScale e) (_localRenderer e) (_blendFunction e) (material e)
  = e.
Proof. destruct e; reflexivity. Qed.

Lemma target_setSize_sized v s t :
  sized_from v s t ->
  target_setSize (JS.Math_floor (fst v * s)%float)
                 (JS.Math_floor (snd v * s)%float) t = t.
Proof.
  intros [W H]. destruct t as [i tw th]. cbn in *. subst. reflexivity.
Qed.

(** Options already in force are a fixed point of [updateOptions], as far
    as the effect object goes. *)
Lemma updateOptions_in_force a en s b w :
  in_force a en s b w -> effect (updateOptions a en s b w) = effect w.
Proof.
  intros (HA & HE & HS & HB).
  unfold updateOptions.
  destruct a as [a|]; [destruct (HA a eq_refl) as [Au Am] | clear HA];
  (destruct en as [en|]; [destruct (HE en eq_refl) as [Eu Em] | clear HE]);
  (destruct b as [f|]; [pose proof (HB f eq_refl) as Bf | clear HB]);
  (destruct s as [s|];
   [ pose proof (HS s eq_refl) as Ss;
     destruct (JS.strict_neq s (resolutionScale (effect w))) eqn:N;
     [ destruct (Ss eq_refl) as [Rs Sz];
       destruct (_localRenderer (effect w)) as [rid|] eqn:L;
       [ destruct (Sz rid eq_refl) as [SzA SzB] | ] | ]
   | clear HS ]);
  cbn; rewrite ?N; cbn; rewrite ?L; cbn;
  rewrite ?setSize_effect; cbn;
  rewrite ?Bf, ?BlendFunction_neq_refl; cbn;
  unfold set_trailAmount, set_trailEnabled; cbn;
  (etransitivity; [| apply effect_eta]);
  f_equal; try congruence;
  try (etransitivity; [| apply uniforms_eta]; f_equal; congruence);
  try (apply target_setSize_sized; assumption);
  try (symmetry; apply effect_eta).
Qed.

Lemma updateOptions_trailAmount v en s b w :
  trailAmount (uniforms (effect (updateOptions (Some v) en s b w))) =
    (v / 100)%float /\
  trailAmount (material (effect (updateOptions (Some v) en s b w))) =
    (v / 100)%float.
Proof.
  unfold updateOptions.
  destruct en as [en|], s as [s|], b as [f|]; cbn; options_cases;
    split; reflexivity.
Qed.

Lemma updateOptions_trailEnabled a x s b w :
  trailEnabled (uniforms (effect (updateOptions a (Some x) s b w))) = x /\
  trailEnabled (material (effect (updateOptions a (Some x) s b w))) = x.
Proof.
  unfold updateOptions.
  destruct a as [a|], s as [s|], b as [f|]; cbn; options_cases;
    split; reflexivity.
Qed.

Lemma updateOptions_localRenderer a en s b w :
  _localRenderer (effect (updateOptions a en s b w)) =
  _localRenderer (effect w).
Proof.
  unfold updateOptions.
  destruct a as [a|], en as [en|], s as [s|], b as [f|]; cbn; options_cases;
    congruence.
Qed.

Lemma updateOptions_drawingBufferSize a en s b w rid :
  drawingBufferSize (renderers (updateOptions a en s b w) rid) =
  drawingBufferSize (renderers w rid).
Proof.
  unfold updateOptions.
  destruct a as [a|], en as [en|], s as [s|], b as [f|]; cbn; options_cases;
    rewrite ?setSize_drawingBufferSize; try reflexivity;
    unfold set_renderer;
    match goal with
    | |- context [Nat.eqb ?x ?y] =>
        destruct (Nat.eqb_spec x y); subst; reflexivity
    end.
Qed.

Lemma updateOptions_resolutionScale a en s b w :
  if JS.strict_neq s (resolutionScale (effect w)) then
    resolutionScale (effect (updateOptions a en (Some s) b w)) = s /\
    forall rid, _localRenderer (effect w) = Some rid ->
      sized_from (drawingBufferSize (renderers w rid)) s
                 (renderTargetA (effect (updateOptions a en (Some s) b w))) /\
      sized_from (drawingBufferSize (renderers w rid)) s
                 (renderTargetB (effect (updateOptions a en (Some s) b w)))
  else
    resolutionScale (effect (updateOptions a en (Some s) b w)) =
    resolutionScale (effect w).
Proof.
  unfold updateOptions, sized_from.
  destruct a as [a|], en as [en|], b as [f|]; cbn; options_cases;
    try reflexivity;
    (split; [reflexivity|]); intros rid' E; try discriminate E;
    injection E as <-; repeat split.
Qed.

Lemma updateOptions_brings_in_force a en s b w :
  in_force a en s b (updateOptions a en s b w).
Proof.
  split; [|split; [|split]].
  - intros v ->. apply updateOptions_trailAmount.
  - intros x ->. apply updateOptions_trailEnabled.
  - intros s0 -> N.
    pose proof (updateOptions_resolutionScale a en s0 b w) as R.
    destruct (JS.strict_neq s0 (resolutionScale (effect w))) eqn:E.
    + destruct R as [R Z]. split; [exact R|].
      intros rid L. rewrite updateOptions_localRenderer in L.
      rewrite updateOptions_drawingBufferSize. apply Z, L.
    + rewrite R, E in N. discriminate N.
  - intros f ->. apply (updateOptions_blendFunction a en s (Some f) w).
Qed.

(** X9: [updateOptions] is idempotent on the effect object: calling it a
    second time with the same arguments leaves every field (uniforms,
    material, scale, buffer sizes and roles, blend function) as the first
    call left it, for any argument values, NaN included; and a call with
    no argument provided changes neither the effect nor any renderer. *)
Theorem updateOptions_idempotent a en s b w :
  effect (updateOptions a en s b (updateOptions a en s b w)) =
    effect (updateOptions a en s b w) /\
  effect (updateOptions None None None None w) = effect w /\
  renderers (updateOptions None None None None w) = renderers w.
Proof.
  split.
  - apply updateOptions_in_force, updateOptions_brings_in_force.
  - split; reflexivity.
Qed.

(** *** X11: the decay weight and the blend *)

Lemma decay_weight_bounds (amt : R) :
  (0 <= amt)%R -> (0 < exp (- amt * 0.2) <= 1)%R.
Proof.
  intros H. split; [apply exp_pos|].
  rewrite <- exp_0.
  destruct (Rle_lt_or_eq_dec 0 amt H) as [L | <-].
  - left. apply exp_increasing. lra.
  - right. f_equal. lra.
Qed.

Lemma mix1_between c p a :
  (0 <= a <= 1)%R -> between1 c p (mix1 c p a).
Proof.
  intros [A0 A1]. unfold between1, mix1, Rmin, Rmax.
  destruct (Rle_dec c p); split; nra.
Qed.

(** X11: for a decay amount that is not negative the weight
    [exp (-trailAmount * 0.2)] lies in (0, 1], so with the trail enabled
    each colour channel either shader puts out lies between the current
    and the previous texel's channel (no overshoot), and the alpha is 1. *)
Theorem blend_is_convex (amt : R) cur prev ic uv :
  (0 <= amt)%R ->
  (0 < exp (- amt * 0.2) <= 1)%R /\
  between (cur uv) (prev uv) (fragmentShader cur prev amt true uv) /\
  between (cur uv) (prev uv) (mainImageShader prev cur amt true ic uv) /\
  a4 (fragmentShader cur prev amt true uv) = 1%R /\
  a4 (mainImageShader prev cur amt true ic uv) = 1%R.
Proof.
  intros H. pose proof (decay_weight_bounds amt H) as D.
  assert (D' : (0 <= exp (- amt * 0.2) <= 1)%R) by lra.
  split; [exact D|].
  split; [|split; [|split]].
  - repeat split; apply mix1_between; exact D'.
  - repeat split; apply mix1_between; exact D'.
  - cbn. lra.
  - cbn. lra.
Qed.

Lemma blend_is_convex_witness :
  (0 < exp (- 1 * 0.2) <= 1)%R /\
  between transparent_black opaque_black
    (fragmentShader (fun _ => transparent_black) (fun _ => opaque_black)
                    1 true origin).
Proof.
  destruct (blend_is_convex 1 (fun _ => transparent_black)
              (fun _ => opaque_black) transparent_black origin
              (Rlt_le 0 1 Rlt_0_1)) as (D & B & _).
  exact (conj D B).
Defined.

(** *** X12: the amount 0 *)

Lemma read_zero_amount : JS.read (0 / 100)%float = JS.Finite 0%R.
Proof.
  unfold JS.read.
  replace (Prim2SF (0 / 100)%float) with (S754_zero false)
    by (vm_compute; reflexivity).
  reflexivity.
Qed.

(** X12: a decay amount of 0 freezes the trail.  After [updateOptions]
    with amount 0, an enabled pass writes the previous-frame texel's colour
    unchanged (with alpha 1) and ignores the current frame altogether. *)
Theorem zero_amount_copies_history en s b w rid i d uv :
  trailEnabled (material (effect (updateOptions (Some 0%float) en s b w)))
    = true ->
  pixels (renderers (update rid i d (updateOptions (Some 0%float) en s b w))
                    rid)
         (Some (rt_id (renderTargetA
                         (effect (updateOptions (Some 0%float) en s b w)))))
         uv =
  vec4_of
    (rgb (sampler (renderers (updateOptions (Some 0%float) en s b w) rid)
                  (previousFrame
                     (material
                        (effect (updateOptions (Some 0%float) en s b w))))
                  uv))
    1.0.
Proof.
  intros H. rewrite update_written.
  pose proof (proj2 (updateOptions_trailAmount 0%float en s b w)) as T.
  unfold JS.number in T.
  rewrite (fragment_enabled _ _ (exp (- 0 * 0.2))).
  - rewrite blend_opaque by (cbn; lra).
    unfold vec4_of, mix, mix1, rgb; cbn.
    replace (- 0 * 0.2)%R with 0%R by lra. rewrite exp_0.
    f_equal; ring.
  - exact H.
  - rewrite T. unfold weight. rewrite read_zero_amount. reflexivity.
Qed.

Lemma zero_amount_copies_history_witness :
  pixels (renderers
            (update 0 frame 0%float
               (updateOptions (Some 0%float) None None None
                  (start Options.empty (fun _ => studio)))) 0)
         (Some TrailTarget1) origin =
  vec4_of (rgb opaque_black) 1.0.
Proof.
  exact (zero_amount_copies_history None None None
           (start Options.empty (fun _ => studio)) 0 frame 0%float origin
           eq_refl).
Defined.

(** *** X13: a still image *)

(** X13: where the current and the previous texel have the same colour,
    the enabled blend returns that colour whatever the decay amount: a
    scene that does not change is reproduced exactly, not dimmed. *)
Theorem still_texel_is_kept (amt : R) cur prev ic uv :
  rgb (cur uv) = rgb (prev uv) ->
  rgb (fragmentShader cur prev amt true uv) = rgb (cur uv) /\
  rgb (mainImageShader prev cur amt true ic uv) = rgb (cur uv).
Proof.
  intros H.
  assert (E : mix (rgb (cur uv)) (rgb (prev uv)) (exp (- amt * 0.2)) =
              rgb (cur uv)).
  { rewrite <- H. unfold mix, mix1, rgb; cbn. f_equal; ring. }
  split; unfold fragmentShader, mainImageShader, texture2D;
    cbv zeta; rewrite E; reflexivity.
Qed.

Lemma still_texel_is_kept_witness :
  rgb (fragmentShader (fun _ => opaque_black) (fun _ => transparent_black)
                      1 true origin) = rgb opaque_black.
Proof.
  exact (proj1 (still_texel_is_kept 1 (fun _ => opaque_black)
                  (fun _ => transparent_black) opaque_black origin
                  eq_refl)).
Defined.

(** *** X14: the trail as a geometric series *)

Lemma update_streaming rid f d w i :
  streaming i (effect w) -> rt_id f = i ->
  streaming i (effect (update rid f d w)).
Proof.
  intros (En & Cur & Prev & AB & IA & IB) F.
  rewrite update_effect. unfold streaming, updateUniforms, texture; cbn.
  split; [exact En|]. split; [rewrite F; reflexivity|].
  split; [reflexivity|].
  split; [intros E; apply AB; symmetry; exact E|].
  split; assumption.
Qed.

Lemma update_streams_one_frame rid f d w i dk uv :
  streaming i (effect w) ->
  weight (trailAmount (material (effect w))) = Some dk ->
  pixels (renderers (update rid f d w) rid)
         (Some (rt_id (renderTargetB (effect (update rid f d w))))) uv =
    vec4_of (mix (rgb (pixels (renderers w rid) (Some i) uv))
                 (rgb (pixels (renderers w rid)
                              (Some (rt_id (renderTargetB (effect w)))) uv))
                 dk)
            1.0 /\
  pixels (renderers (update rid f d w) rid) (Some i) uv =
    pixels (renderers w rid) (Some i) uv.
Proof.
  intros (En & Cur & Prev & AB & IA & IB) W. split.
  - change (rt_id (renderTargetB (effect (update rid f d w))))
      with (rt_id (renderTargetA (effect w))).
    rewrite update_written.
    rewrite (fragment_enabled _ _ dk) by assumption.
    rewrite Cur, Prev.
    apply blend_opaque. cbn. lra.
  - apply update_untouched. exact IA.
Qed.

Lemma mix_mix (c h : vec3) (a b : R) :
  mix c (mix c h a) b = mix c h (a * b).
Proof. unfold mix, mix1; cbn. f_equal; ring. Qed.

Lemma mix_one (c : vec3) (h : vec4) : mix c (rgb h) 1 = rgb h.
Proof. unfold mix, mix1, rgb; cbn. f_equal; ring. Qed.

Lemma steps_stream rid i dk uv frames : forall w,
  streaming i (effect w) ->
  weight (trailAmount (material (effect w))) = Some dk ->
  Forall (fun f => rt_id (fst f) = i) frames ->
  rgb (pixels (renderers (steps rid frames w) rid)
              (Some (rt_id (renderTargetB (effect (steps rid frames w)))))
              uv) =
  mix (rgb (pixels (renderers w rid) (Some i) uv))
      (rgb (pixels (renderers w rid)
                   (Some (rt_id (renderTargetB (effect w)))) uv))
      (dk ^ length frames).
Proof.
  induction frames as [|f fs IH]; intros w S W F.
  - cbn [length pow]. rewrite mix_one. reflexivity.
  - pose proof (Forall_inv F) as Ff. pose proof (Forall_inv_tail F) as Ffs.
    cbn beta in Ff.
    rewrite steps_cons.
    rewrite (IH (update rid (fst f) (snd f) w)
                (update_streaming rid (fst f) (snd f) w _ S Ff) W Ffs).
    destruct (update_streams_one_frame rid (fst f) (snd f) w _ dk uv S W)
      as [HB HI].
    rewrite HB, HI.
    change (rgb (vec4_of ?v 1.0)) with v.
    cbn [length pow]. apply mix_mix.
Qed.

(** X14: while frames stream in from one host texture with the trail
    enabled, and the stored amount has a real decay weight [d]
    ([exp (-trailAmount * 0.2)] for a finite amount, 0 for [+Infinity]),
    the history buffer after n further [update] calls holds, in every
    colour channel, [I * (1 - d^n) + H * d^n], where [I] is the texel of
    the host texture and [H] the history texel before the calls: the old
    history fades geometrically, by the factor [d] per frame.  (During
    these calls the host texture keeps the content it had; the property
    is about the accumulation, not about a moving scene.) *)
Theorem trail_fades_geometrically rid i frames w uv (dk : R) :
  streaming i (effect w) ->
  weight (trailAmount (material (effect w))) = Some dk ->
  Forall (fun f => rt_id (fst f) = i) frames ->
  rgb (pixels (renderers (steps rid frames w) rid)
              (Some (rt_id (renderTargetB (effect (steps rid frames w)))))
              uv) =
    mix (rgb (pixels (renderers w rid) (Some i) uv))
        (rgb (pixels (renderers w rid)
                     (Some (rt_id (renderTargetB (effect w)))) uv))
        (dk ^ length frames) /\
  streaming i (effect (steps rid frames w)) /\
  (forall a, JS.read (trailAmount (material (effect w))) = JS.Finite a ->
             dk = exp (- a * 0.2)) /\
  (JS.read (trailAmount (material (effect w))) = JS.PosInfinity ->
   dk = 0%R).
Proof.
  intros S W F. split; [apply steps_stream; assumption|].
  split; [|apply (weight_is_exp _ _ W)].
  clear W. revert w S. induction F as [|f fs Ff Ffs IH]; intros w S.
  - exact S.
  - rewrite steps_cons. apply IH. apply update_streaming; assumption.
Qed.

Lemma trail_fades_geometrically_witness :
  weight (95 / 100)%float = Some default_weight /\
  rgb (pixels
         (renderers
            (steps 0 [(frame, 0%float); (frame, 0%float)]
               (update 0 frame 0%float
                  (start Options.empty (fun _ => stage)))) 0)
         (Some TrailTarget1) origin) =
    mix (rgb red) (rgb opaque_black) (default_weight ^ 2).
Proof.
  pose proof default_weight_is_real as W.
  split; [exact W|].
  rewrite <- stage_first_pass.
  refine (proj1 (trail_fades_geometrically
                   0 (HostTarget 0) [(frame, 0%float); (frame, 0%float)]
                   (update 0 frame 0%float
                      (start Options.empty (fun _ => stage)))
                   origin default_weight _ W _)).
  - unfold streaming; cbn.
    repeat (split; [first [reflexivity | discriminate]|]). discriminate.
  - repeat constructor.
Defined.

(** *** X15: the first accumulation pass *)

Lemma call_unbound c w :
  not_a_frame c -> unbound (effect w) -> unbound (effect (call c w)).
Proof.
  intros N H. destruct c as [r a f | r i d | x y | a en s bf | ];
    cbn [call]; cbn in N.
  - unfold initialize. rewrite clearRenderTargets_effect, setSize_effect.
    exact H.
  - contradiction.
  - rewrite setSize_effect. exact H.
  - unfold updateOptions, unbound.
    destruct a as [a|], en as [en|], s as [s|], bf as [f|]; cbn;
      options_cases; exact H.
  - rewrite resetRenderTargets_effect. exact H.
Qed.

Lemma run_unbound cs : forall w,
  Forall not_a_frame cs -> unbound (effect w) -> unbound (effect (run cs w)).
Proof.
  induction cs as [|c cs IH]; intros w F H; cbn.
  - exact H.
  - apply IH; [exact (Forall_inv_tail F)|].
    apply call_unbound; [exact (Forall_inv F) | exact H].
Qed.

(** X15: the first accumulation pass draws no frame.  After construction
    and any calls other than [update] (initialisation, resizes, option
    changes, resets), with the trail enabled and a real decay weight [d],
    the pass of the first [update] fills the write target with the colour
    a sampler bound to [null] reads, at alpha 1, whatever the input image
    and whatever the buffers held, because both samplers of that pass are
    still unbound.  The effect's output of that first call is therefore
    the input blended with that colour, [mix (input.rgb, null.rgb, d)],
    and not with the cleared baseline. *)
Theorem first_pass_draws_null_texel options g cs rid i d ic uv (dk : R) n :
  Forall not_a_frame cs ->
  trailEnabled (material (effect (run cs (start options g)))) = true ->
  weight (trailAmount (material (effect (run cs (start options g))))) =
    Some dk ->
  rt_id i = HostTarget n ->
  pixels (renderers (update rid i d (run cs (start options g))) rid)
         (Some (rt_id (renderTargetA (effect (run cs (start options g))))))
         uv =
    vec4_of (rgb (emptyTexel (renderers (run cs (start options g)) rid)))
            1.0 /\
  output rid (update rid i d (run cs (start options g))) ic uv =
    vec4_of
      (mix (rgb (pixels (renderers (run cs (start options g)) rid)
                        (Some (texture i)) uv))
           (rgb (emptyTexel (renderers (run cs (start options g)) rid)))
           dk)
      1.0.
Proof.
  intros F En W Hi.
  set (w := run cs (start options g)) in *.
  destruct (run_unbound cs (start options g) F (conj eq_refl eq_refl))
    as [C P]. fold w in C, P.
  destruct (run_in_sync cs (start options g) (start_in_sync options g))
    as [U _]. fold w in U.
  assert (O : own_targets (effect w))
    by apply run_own_targets, start_own_targets.
  assert (N : rt_id i <> rt_id (renderTargetA (effect w))).
  { rewrite Hi. destruct O as [[HA _] | [HA _]]; rewrite HA; discriminate. }
  assert (P1 : pixels (renderers (update rid i d w) rid)
                      (Some (rt_id (renderTargetA (effect w)))) uv =
               vec4_of (rgb (emptyTexel (renderers w rid))) 1.0).
  { rewrite update_written.
    rewrite (fragment_enabled _ _ dk) by assumption.
    rewrite C, P. rewrite blend_opaque by (cbn; lra).
    unfold sampler, vec4_of, mix, mix1, rgb; cbn. f_equal; ring. }
  split; [exact P1|].
  unfold output. rewrite update_uniforms.
  rewrite (mainImage_enabled _ _ dk);
    [| cbn; rewrite U; exact En | cbn; rewrite U; exact W].
  cbn [currentFrame previousFrame sampler].
  pose proof (update_untouched rid i d w (texture i) uv N) as T.
  unfold texture, Texture in *. rewrite P1, T. reflexivity.
Qed.

Lemma first_pass_draws_null_texel_witness :
  weight (95 / 100)%float = Some default_weight /\
  output 0 (update 0 frame 0%float
              (run [Initialize 0 false 0]
                   (start Options.empty (fun _ => stage))))
         transparent_black origin =
    vec4_of (mix (rgb red) (rgb opaque_black) default_weight) 1.0.
Proof.
  pose proof default_weight_is_real as W.
  split; [exact W|].
  refine (proj2 (first_pass_draws_null_texel
                   Options.empty (fun _ => stage) [Initialize 0 false 0]
                   0 frame 0%float transparent_black origin default_weight 0
                   _ eq_refl W eq_refl)).
  repeat constructor.
Defined.
